(** * SPARK: reference extraction, abstract resolution and report rendering

    A shallow embedding of [trial.py] (class [PDFLinkExtractor]).

    Conventions of the model.
    - A Python [str] is a [string]: a sequence of code points below 256.
      [len] is [String.length], slicing [s[:n]] is [str_take n s].
    - The regular expressions of the program are leftmost, greedy,
      backtracking matches ([re.findall]); the five reference patterns are
      sequences of bounded repetitions of character classes and are run by
      one small matcher written for that shape.
    - [list(set(xs))] is modelled by [nodup]: Python leaves the iteration
      order of a set open, and every statement below is about membership,
      absence of duplicates or an explicit list order given by the caller.
    - The network, the HTML parser, the JSON decoder, the PDF reader and the
      file system are external: they are the fields of a [World] record.  A
      request that raises is [None].  The same request gives the same answer
      each time it is made.
    - Local variables of [process_links_and_dois] live in the state, because
      Python keeps them from one loop iteration to the next; reading an
      unbound one raises.
    - Logging and [time.sleep] have no effect on any value and are left out;
      [print] is kept as the list of printed lines. *)

From Stdlib Require Import String Ascii List Arith Bool Lia.
From Stdlib Require Import Numbers.DecimalString.
Import ListNotations.
Open Scope list_scope.
Open Scope string_scope.
Open Scope nat_scope.

(** ** Strings as Python uses them *)

Module PyStr.

Definition code (c : ascii) : nat := nat_of_ascii c.

Definition between (lo hi : nat) (c : ascii) : bool :=
  (lo <=? code c) && (code c <=? hi).

(** [str.isspace] and the class [\s] of a [str] pattern, on code points
    below 256: TAB..CR, FS..US, space, NEL and NBSP. *)
Definition is_space (c : ascii) : bool :=
  between 9 13 c || between 28 32 c || (code c =? 133) || (code c =? 160).

(** [\d] on code points below 256. *)
Definition is_digit (c : ascii) : bool := between 48 57 c.

Definition is_upper (c : ascii) : bool := between 65 90 c.
Definition is_lower (c : ascii) : bool := between 97 122 c.
Definition is_alpha (c : ascii) : bool := is_upper c || is_lower c.

Definition lower (c : ascii) : ascii :=
  if is_upper c then ascii_of_nat (code c + 32) else c.

Definition char_in (set : string) (c : ascii) : bool :=
  existsb (Ascii.eqb c) (list_ascii_of_string set).

Fixpoint all_chars (p : ascii -> bool) (s : string) : bool :=
  match s with
  | EmptyString => true
  | String c s' => p c && all_chars p s'
  end.

Definition head_char (s : string) : option ascii :=
  match s with
  | EmptyString => None
  | String c _ => Some c
  end.

Fixpoint last_char (s : string) : option ascii :=
  match s with
  | EmptyString => None
  | String c EmptyString => Some c
  | String _ s' => last_char s'
  end.

(** [s[:n]] *)
Fixpoint str_take (n : nat) (s : string) : string :=
  match n, s with
  | S n', String c s' => String c (str_take n' s')
  | _, _ => EmptyString
  end.

(** [s[n:]] *)
Fixpoint str_drop (n : nat) (s : string) : string :=
  match n, s with
  | S n', String _ s' => str_drop n' s'
  | _, _ => s
  end.

(** [s.startswith(p)] *)
Fixpoint startswith (p s : string) : bool :=
  match p, s with
  | EmptyString, _ => true
  | String a p', String b s' => Ascii.eqb a b && startswith p' s'
  | String _ _, EmptyString => false
  end.

(** [p in s] *)
Fixpoint contains (p s : string) : bool :=
  startswith p s ||
  match s with
  | EmptyString => false
  | String _ s' => contains p s'
  end.

(** [s.lstrip(set)] and [s.rstrip(set)], the set given as a predicate. *)
Fixpoint lstrip_by (p : ascii -> bool) (s : string) : string :=
  match s with
  | EmptyString => EmptyString
  | String c s' => if p c then lstrip_by p s' else s
  end.

Fixpoint rstrip_by (p : ascii -> bool) (s : string) : string :=
  match s with
  | EmptyString => EmptyString
  | String c s' =>
      match rstrip_by p s' with
      | EmptyString => if p c then EmptyString else String c EmptyString
      | r => String c r
      end
  end.

Definition strip_by (p : ascii -> bool) (s : string) : string :=
  rstrip_by p (lstrip_by p s).

(** [s.strip()] *)
Definition strip (s : string) : string := strip_by is_space s.

(** [s.strip(chars)] *)
Definition strip_chars (chars s : string) : string := strip_by (char_in chars) s.

(** [s.split(sep)[-1]] for a one-character separator: what follows the
    last separator, the whole string when there is none. *)
Fixpoint last_segment_from (sep : ascii) (acc s : string) : string :=
  match s with
  | EmptyString => acc
  | String c s' =>
      if Ascii.eqb c sep then last_segment_from sep s' s'
      else last_segment_from sep acc s'
  end.

Definition split_last (sep : ascii) (s : string) : string :=
  last_segment_from sep s s.

(** [s.replace(old, new)]: occurrences of [old] replaced from left to
    right, without overlap.  [old] is never empty in the program. *)
Fixpoint replace_from (skip : nat) (old new s : string) : string :=
  match s with
  | EmptyString => EmptyString
  | String c s' =>
      match skip with
      | S k => replace_from k old new s'
      | O =>
          if startswith old s
          then new ++ replace_from (String.length old - 1) old new s'
          else String c (replace_from O old new s')
      end
  end.

Definition replace (old new s : string) : string := replace_from 0 old new s.

(** [re.sub(r'\s+', ' ', s)]: every maximal run of white space becomes one
    space. *)
Fixpoint collapse_spaces_from (in_run : bool) (s : string) : string :=
  match s with
  | EmptyString => EmptyString
  | String c s' =>
      if is_space c
      then if in_run then collapse_spaces_from true s'
           else String " " (collapse_spaces_from true s')
      else String c (collapse_spaces_from false s')
  end.

Definition collapse_spaces (s : string) : string := collapse_spaces_from false s.

(** The truth value of a [str]: empty is false. *)
Definition truthy (s : string) : bool :=
  match s with
  | EmptyString => false
  | String _ _ => true
  end.

(** [str(n)] for a non-negative integer. *)
Definition str_of_nat (n : nat) : string := NilEmpty.string_of_uint (Nat.to_uint n).

Definition dquote : string := String (ascii_of_nat 34) EmptyString.
Definition newline : ascii := ascii_of_nat 10.

End PyStr.
Import PyStr.

(** ** The regular expressions of the reference extractor *)

Module Regex.

(** One pattern element: a character class repeated between [lo] and [hi]
    times ([hi = None]: no upper bound), greedily. A literal character is
    the class of that character repeated exactly once. *)
Record atom := Atom { cls : ascii -> bool; lo : nat; hi : option nat }.

Definition pattern := list atom.

Definition chr (c : ascii) : atom := Atom (Ascii.eqb c) 1 (Some 1).
Definition opt (c : ascii) : atom := Atom (Ascii.eqb c) 0 (Some 1).
Definition plus (p : ascii -> bool) : atom := Atom p 1 None.
Definition rep (p : ascii -> bool) (m n : nat) : atom := Atom p m (Some n).

Definition lit (s : string) : pattern := map chr (list_ascii_of_string s).

(** A literal under [re.IGNORECASE]. *)
Definition chr_ci (c : ascii) : atom :=
  Atom (fun d => Ascii.eqb (lower d) (lower c)) 1 (Some 1).
Definition lit_ci (s : string) : pattern := map chr_ci (list_ascii_of_string s).

Definition within (h : option nat) (n : nat) : bool :=
  match h with
  | None => true
  | Some m => n <? m
  end.

(** How many characters the greedy repetition takes at first: the longest
    run of class characters at the head of [s], cut at the upper bound. *)
Fixpoint run (p : ascii -> bool) (h : option nat) (taken : nat) (s : string) : nat :=
  match s with
  | EmptyString => taken
  | String c s' =>
      if p c && within h taken then run p h (S taken) s' else taken
  end.

(** Backtracking: try the continuation after [n] characters, then after
    [n-1], ... down to [l]. The answer is the count kept and what the
    continuation gave. *)
Fixpoint backoff {A : Type} (k : string -> option A) (s : string) (l n : nat)
  : option (nat * A) :=
  match k (str_drop n s) with
  | Some r => Some (n, r)
  | None =>
      match n with
      | O => None
      | S n' => if l <=? n' then backoff k s l n' else None
      end
  end.

(** [match_then p k s]: match [p] at the head of [s], then what follows the
    pattern ([k], on the rest of the string). The answer is the length
    matched by [p] and the answer of [k]. *)
Fixpoint match_then {A : Type} (p : pattern) (k : string -> option A) (s : string)
  : option (nat * A) :=
  match p with
  | [] => option_map (pair 0) (k s)
  | a :: p' =>
      let n := run (cls a) (hi a) 0 s in
      if lo a <=? n then
        match backoff (match_then p' k) s (lo a) n with
        | Some (n1, (n2, r)) => Some (n1 + n2, r)
        | None => None
        end
      else None
  end.

(** [match_here p s]: the length of the match of [p] at the head of [s]. *)
Definition match_here (p : pattern) (s : string) : option nat :=
  option_map fst (match_then p (fun _ => Some tt) s).

(** [re.search]: the first position, from the left, where [m] matches. *)
Fixpoint search {A : Type} (m : string -> option A) (s : string) : option A :=
  match m s with
  | Some r => Some r
  | None =>
      match s with
      | EmptyString => None
      | String _ s' => search m s'
      end
  end.

(** [re.findall(p, s)] for a pattern without groups that matches no empty
    string: the matches from left to right, the scan resuming after each
    match. [skip] counts the characters of the last match still to pass. *)
Fixpoint findall_from (skip : nat) (p : pattern) (s : string) : list string :=
  match skip with
  | S k =>
      match s with
      | EmptyString => []
      | String _ s' => findall_from k p s'
      end
  | O =>
      match match_here p s with
      | Some (S n) =>
          str_take (S n) s ::
          match s with
          | EmptyString => []
          | String _ s' => findall_from n p s'
          end
      | _ =>
          match s with
          | EmptyString => []
          | String _ s' => findall_from O p s'
          end
      end
  end.

Definition findall (p : pattern) (s : string) : list string := findall_from 0 p s.

(** What it means for a whole string to match a pattern. *)
Inductive Matches : pattern -> string -> Prop :=
| Matches_nil : Matches [] EmptyString
| Matches_cons a p u v :
    all_chars (cls a) u = true ->
    lo a <= String.length u ->
    (forall m, hi a = Some m -> String.length u <= m) ->
    Matches p v ->
    Matches (a :: p) (u ++ v).

End Regex.
Import Regex.

(** ** Reference extraction: [extract_links_and_dois] *)

Definition not_space (c : ascii) : bool := negb (is_space c).

(** [https?://[^\s]+] *)
Definition link_http : pattern :=
  (lit "http" ++ [opt "s"%char] ++ lit "://" ++ [plus not_space])%list.

(** [www\.[^\s]+] *)
Definition link_www : pattern := (lit "www." ++ [plus not_space])%list.

(** [doi\.org/[^\s]+] *)
Definition link_doi : pattern := (lit "doi.org/" ++ [plus not_space])%list.

Definition link_patterns : list pattern := [link_http; link_www; link_doi].

(** [[-._;()/:A-Za-z0-9]] *)
Definition doi_char (c : ascii) : bool :=
  char_in "-._;()/:" c || is_upper c || is_lower c || is_digit c.

(** [10\.\d{4,9}/[-._;()/:A-Za-z0-9]+] *)
Definition doi_pattern : pattern :=
  (lit "10." ++ [rep is_digit 4 9] ++ lit "/" ++ [plus doi_char])%list.

(** [arXiv:\d{4}\.\d{4,5}] *)
Definition arxiv_pattern : pattern :=
  (lit "arXiv:" ++ [rep is_digit 4 4] ++ lit "." ++ [rep is_digit 4 5])%list.

(** [list(set(xs))] *)
Definition list_set (xs : list string) : list string := nodup string_dec xs.

Definition extract_links_and_dois (text : string)
  : list string * list string * list string :=
  let links := flat_map (fun p => findall p text) link_patterns in
  let dois := findall doi_pattern text in
  let arxiv_ids := findall arxiv_pattern text in
  let links := list_set (map (strip_chars ",.()[]") links) in
  let dois := list_set dois in
  let arxiv_ids := list_set arxiv_ids in
  (links, dois, arxiv_ids).

(** ** The outside world *)

(** What [requests.get] returns: [response.status_code], [response.text]. *)
Record Response := { status_code : nat; text : string }.

(** An element of a parsed page, as the program reads it: its name, its
    attributes, the tokens of its [class] attribute, and [tag.text]. *)
Record Tag := {
  tag_name : string;
  tag_attrs : list (string * string);
  tag_classes : list string;
  tag_text : string
}.

Inductive exn :=
| UnboundLocalError (name : string)
| PermissionError (msg : string)
| IOError (msg : string)
| OtherError (msg : string).

Record World := {
  (** [requests.get(url, ...)]; the flag tells whether the browser headers
      are sent; [None] when the call raises. *)
  requests_get : string -> bool -> option Response;
  (** [BeautifulSoup(text, 'html.parser')]: the elements in document order. *)
  html_parser : string -> list Tag;
  (** [requests.utils.quote] *)
  quote : string -> string;
  (** [response.json()] of the Crossref answer, read as the [abstract] field
      of each entry of [message.items]; [None] when decoding raises. *)
  crossref_items : string -> option (list (option string));
  (** [response.json()] of the Semantic Scholar answer, read as the
      [abstract] field of each entry of [data]. *)
  semantic_papers : string -> option (list (option string));
  (** [PdfReader(file).pages], each page as its [extract_text()]; [None]
      when opening or reading raises. *)
  pdf_pages : string -> option (list string);
  (** [pdf.add_font(...)]: the exception it raises, if any. *)
  add_font : option exn;
  (** Writing a file at a path: the exception it raises, if any. *)
  write_file : string -> option exn
}.

(** ** Dictionaries in insertion order *)

Module Dict.

Definition t (V : Type) : Type := list (string * V).

Fixpoint get {V : Type} (k : string) (d : t V) : option V :=
  match d with
  | [] => None
  | (k', v) :: d' => if String.eqb k' k then Some v else get k d'
  end.

(** [d[k] = v]: a known key keeps its place, a new key goes last. *)
Fixpoint set {V : Type} (k : string) (v : V) (d : t V) : t V :=
  match d with
  | [] => [(k, v)]
  | (k', v') :: d' =>
      if String.eqb k' k then (k, v) :: d' else (k', v') :: set k v d'
  end.

(** [d.get(k, default)] *)
Definition get_default {V : Type} (k : string) (default : V) (d : t V) : V :=
  match get k d with
  | Some v => v
  | None => default
  end.

Definition keys {V : Type} (d : t V) : list string := map fst d.

End Dict.

(** The value stored for a reference: a dictionary with the keys ['title']
    and ['abstract']. *)
Definition info := Dict.t string.
Definition metadata_t := Dict.t info.

Definition record (title abstract : string) : info :=
  Dict.set "abstract" abstract (Dict.set "title" title []).

(** The record of the [except] branch of [process_links_and_dois]. *)
Definition failed_record : info :=
  Dict.set "title" "Unknown Title" (Dict.set "abstract" "Failed to get Abstract" []).

(** ** Page queries *)

Definition lower_str (s : string) : string :=
  string_of_list_ascii (map lower (list_ascii_of_string s)).

(** [re.compile('abstract|description', re.IGNORECASE)] searched in a class
    token. *)
Definition class_re (c : string) : bool :=
  contains "abstract" (lower_str c) || contains "description" (lower_str c).

(** [tag.get(key, default)] *)
Definition tag_get (key default : string) (t : Tag) : string :=
  Dict.get_default key default (tag_attrs t).

(** [soup.find(name)] with a filter on the element. *)
Definition soup_find (name : string) (ok : Tag -> bool) (soup : list Tag) : option Tag :=
  find (fun t => String.eqb (tag_name t) name && ok t) soup.

(** [attrs={'name': 'description'}] *)
Definition named_description (t : Tag) : bool :=
  match Dict.get "name" (tag_attrs t) with
  | Some v => String.eqb v "description"
  | None => false
  end.

(** [class_=re.compile(...)] and [class_='...'] *)
Definition class_matches (t : Tag) : bool := existsb class_re (tag_classes t).
Definition has_class (c : string) (t : Tag) : bool := existsb (String.eqb c) (tag_classes t).
Definition any_tag (t : Tag) : bool := true.

(** ** The resolution stages *)

Section Stages.

Variable w : World.

(** What one API attempt of [extract_abstract_alternative] does: return an
    abstract, fall through to the next statement, or raise. *)
Inductive attempt := Found (abstract : string) | Nothing | Raised.

(** [works[0].get('abstract')] when [works] is not empty and the field is
    truthy. *)
Definition first_abstract (items : list (option string)) : option string :=
  match items with
  | Some a :: _ => if truthy a then Some a else None
  | _ => None
  end.

Definition api_attempt (url : string)
    (decode : string -> option (list (option string))) : attempt :=
  match requests_get w url false with
  | None => Raised
  | Some r =>
      if status_code r =? 200 then
        match decode (text r) with
        | None => Raised
        | Some items =>
            match first_abstract items with
            | Some a => Found a
            | None => Nothing
            end
        end
      else Nothing
  end.

Definition extract_abstract_alternative (title : string) : string :=
  let crossref_url :=
    "https://api.crossref.org/works?query=" ++ quote w title ++ "&rows=1" in
  match api_attempt crossref_url (crossref_items w) with
  | Found a => a
  | Raised => "Abstract extraction failed"
  | Nothing =>
      let semantic_url :=
        "https://api.semanticscholar.org/graph/v1/paper/search?query="
        ++ quote w title ++ "&fields=abstract" in
      match api_attempt semantic_url (semantic_papers w) with
      | Found a => a
      | Raised => "Abstract extraction failed"
      | Nothing => "Abstract not found through APIs"
      end
  end.

(** The loop over [abstract_candidates]. *)
Fixpoint first_long_candidate (candidates : list (option Tag)) : string :=
  match candidates with
  | [] => "Abstract not found"
  | None :: rest => first_long_candidate rest
  | Some candidate :: rest =>
      let abstract := tag_get "content" (tag_text candidate) candidate in
      if truthy abstract && (50 <? String.length abstract)
      then strip abstract
      else first_long_candidate rest
  end.

Definition abstract_candidates (soup : list Tag) : list (option Tag) :=
  [ soup_find "meta" named_description soup;
    soup_find "div" class_matches soup;
    soup_find "p" class_matches soup ].

Definition extract_abstract_from_url (url : string) : string :=
  match requests_get w url true with
  | None => "Abstract extraction failed"
  | Some response =>
      if negb (status_code response =? 200) then "Abstract not available"
      else first_long_candidate (abstract_candidates (html_parser w (text response)))
  end.

(** [response.raise_for_status()] raises on 4xx and 5xx. *)
Definition raise_for_status (r : Response) : bool :=
  (400 <=? status_code r) && (status_code r <? 600).

Definition extract_abstract_from_arxiv (url : string) : string * string :=
  match requests_get w url false with
  | None => ("Title retrieval error", "Abstract retrieval error")
  | Some response =>
      if raise_for_status response
      then ("Title retrieval error", "Abstract retrieval error")
      else
        let soup := html_parser w (text response) in
        let title_text :=
          match soup_find "h1" (has_class "title") soup with
          | Some title_tag => strip (replace "Title:" EmptyString (tag_text title_tag))
          | None => "Title not available"
          end in
        let abstract_text :=
          match soup_find "blockquote" (has_class "abstract") soup with
          | Some abstract_block =>
              strip (replace "Abstract:" EmptyString (tag_text abstract_block))
          | None => "Abstract not available"
          end in
        (title_text, abstract_text)
  end.

Definition extract_title_from_url (url : string) : string :=
  if contains "arxiv.org" url then
    let arxiv_id := split_last "/" url in
    let title := fst (extract_abstract_from_arxiv url) in
    if negb (String.eqb title "Title not available") then title
    else "ArXiv Paper ID: " ++ arxiv_id
  else if contains "doi.org" url then
    let title := extract_abstract_alternative url in
    if negb (String.eqb title "Abstract extraction failed") then title
    else "DOI Reference: " ++ split_last "/" url
  else
    match requests_get w url true with
    | None => "Unknown Title"
    | Some response =>
        let fallback := split_last "/" url in
        if status_code response =? 200 then
          match soup_find "title" any_tag (html_parser w (text response)) with
          | Some title_tag =>
              if truthy (strip (tag_text title_tag))
              then strip (tag_text title_tag)
              else fallback
          | None => fallback
          end
        else fallback
    end.

End Stages.

(** ** The in-document heuristic: [extract_abstract_from_text] *)

(** The lookahead [(?=\n\n|\n[A-Z]|$)] under [IGNORECASE] and [MULTILINE]:
    two line feeds, a line feed and a letter, or the end of a line. *)
Definition abstract_end (s : string) : bool :=
  startswith (String newline (String newline EmptyString)) s
  || match s with
     | String c (String d _) => Ascii.eqb c newline && is_alpha d
     | _ => false
     end
  || match s with
     | EmptyString => true
     | String c _ => Ascii.eqb c newline
     end.

(** The group [(.+?)] under [DOTALL], followed by the lookahead: one
    character, then as few more as the lookahead needs. *)
Fixpoint lazy_capture (s : string) : option string :=
  match s with
  | EmptyString => None
  | String c s' =>
      if abstract_end s' then Some (String c EmptyString)
      else option_map (String c) (lazy_capture s')
  end.

(** [Abstract[:.]?\s*] before the group, under [IGNORECASE]. *)
Definition abstract_label : pattern :=
  (lit_ci "Abstract" ++ [Atom (char_in ":.") 0 (Some 1); Atom is_space 0 None])%list.

(** [matches[0]] of the first pattern: the group of the leftmost match. *)
Definition first_labelled (text : string) : option string :=
  search (fun s => option_map snd (match_then abstract_label lazy_capture s)) text.

Definition starts_section_word (s : string) : bool :=
  startswith "introduction" (lower_str (str_take 12 s))
  || startswith "references" (lower_str (str_take 10 s)).

(** [(?:(?!Introduction|References)[\s\S]){50,500}] at the head of [s]:
    how many characters the greedy repetition takes, [limit] at most. *)
Fixpoint tempered_run (limit : nat) (s : string) : nat :=
  match limit, s with
  | S l, String _ s' =>
      if starts_section_word s then 0 else S (tempered_run l s')
  | _, _ => 0
  end.

(** [matches[0]] of the second pattern. *)
Definition first_block (text : string) : option string :=
  search (fun s =>
            let n := tempered_run 500 s in
            if 50 <=? n then Some (str_take n s) else None) text.

(** [re.sub(r'\s+', ' ', abstract).strip()] *)
Definition clean (abstract : string) : string := strip (collapse_spaces abstract).

Definition long_enough (found : option string) : option string :=
  match found with
  | Some abstract =>
      if 50 <? String.length (clean abstract) then Some (clean abstract) else None
  | None => None
  end.

Definition extract_abstract_from_text (text : string) : string :=
  match long_enough (first_labelled text) with
  | Some abstract => abstract
  | None =>
      match long_enough (first_block text) with
      | Some abstract => abstract
      | None => "No abstract found in text"
      end
  end.

(** ** The extractor object and its methods *)

(** One element of the output PDF, in the order of the calls on [pdf]. *)
Inductive pdf_op :=
| Cell (txt : string)
| MultiCell (txt : string)
| Ln (h : nat).

Inductive document :=
| PdfDoc (ops : list pdf_op)
| HtmlDoc (content : string).

(** The calls [process_links_and_dois] makes to the other methods. *)
Inductive call :=
| Call_arxiv (url : string)
| Call_url (url : string)
| Call_title (url : string)
| Call_alternative (title : string)
| Call_text.

(** [self.metadata], the local variables [title] and [abstract] of
    [process_links_and_dois] ([None]: not bound), the lines printed, the
    files written, and the calls made so far (kept for the proofs only). *)
Record State := {
  metadata : metadata_t;
  v_title : option string;
  v_abstract : option string;
  stdout : list string;
  files : list (string * document);
  calls : list call
}.

Definition init_state : State :=
  {| metadata := []; v_title := None; v_abstract := None;
     stdout := []; files := []; calls := [] |}.

Definition with_metadata (m : metadata_t) (st : State) : State :=
  {| metadata := m; v_title := v_title st; v_abstract := v_abstract st;
     stdout := stdout st; files := files st; calls := calls st |}.

Definition with_title (t : option string) (st : State) : State :=
  {| metadata := metadata st; v_title := t; v_abstract := v_abstract st;
     stdout := stdout st; files := files st; calls := calls st |}.

Definition with_abstract (a : option string) (st : State) : State :=
  {| metadata := metadata st; v_title := v_title st; v_abstract := a;
     stdout := stdout st; files := files st; calls := calls st |}.

Definition with_stdout (o : list string) (st : State) : State :=
  {| metadata := metadata st; v_title := v_title st; v_abstract := v_abstract st;
     stdout := o; files := files st; calls := calls st |}.

Definition with_files (f : list (string * document)) (st : State) : State :=
  {| metadata := metadata st; v_title := v_title st; v_abstract := v_abstract st;
     stdout := stdout st; files := f; calls := calls st |}.

Definition with_calls (c : list call) (st : State) : State :=
  {| metadata := metadata st; v_title := v_title st; v_abstract := v_abstract st;
     stdout := stdout st; files := files st; calls := c |}.

(** Statements that may raise: the state reached is kept either way. *)
Module Py.

Inductive result (A : Type) :=
| Ok (a : A)
| Raise (e : exn).
Arguments Ok {A} a.
Arguments Raise {A} e.

Definition M (A : Type) : Type := State -> result A * State.

Definition ret {A : Type} (a : A) : M A := fun st => (Ok a, st).

Definition bind {A B : Type} (m : M A) (k : A -> M B) : M B :=
  fun st =>
    match m st with
    | (Ok a, st') => k a st'
    | (Raise e, st') => (Raise e, st')
    end.

Definition raise {A : Type} (e : exn) : M A := fun st => (Raise e, st).

(** [try: body except Exception: handler] *)
Definition try_except (body : M unit) (handler : exn -> M unit) : M unit :=
  fun st =>
    match body st with
    | (Ok a, st') => (Ok a, st')
    | (Raise e, st') => handler e st'
    end.

Definition modify (f : State -> State) : M unit := fun st => (Ok tt, f st).

Definition when (b : bool) (m : M unit) : M unit := if b then m else ret tt.

(** [for x in xs: body(x)] *)
Fixpoint for_each {A : Type} (xs : list A) (body : A -> M unit) : M unit :=
  match xs with
  | [] => ret tt
  | x :: xs' => bind (body x) (fun _ => for_each xs' body)
  end.

End Py.
Import Py.

Notation "x <- m ;; k" := (bind m (fun x => k))
  (at level 61, m at next level, right associativity).
Notation "m ;;; k" := (bind m (fun _ => k))
  (at level 61, right associativity).

Section Extractor.

Variable w : World.

(** Reading a local variable. *)
Definition read_title : M string :=
  fun st =>
    match v_title st with
    | Some t => (Ok t, st)
    | None => (Raise (UnboundLocalError "title"), st)
    end.

Definition read_abstract : M string :=
  fun st =>
    match v_abstract st with
    | Some a => (Ok a, st)
    | None => (Raise (UnboundLocalError "abstract"), st)
    end.

Definition set_title (t : string) : M unit := modify (with_title (Some t)).
Definition set_abstract (a : string) : M unit := modify (with_abstract (Some a)).

(** [self.metadata[source] = info] *)
Definition store (source : string) (i : info) : M unit :=
  modify (fun st => with_metadata (Dict.set source i (metadata st)) st).

Definition note (c : call) : M unit :=
  modify (fun st => with_calls (calls st ++ [c])%list st).

Definition print (line : string) : M unit :=
  modify (fun st => with_stdout (stdout st ++ [line])%list st).

(** The methods called by the loop; none of them raises. *)
Definition call_arxiv (url : string) : M (string * string) :=
  note (Call_arxiv url) ;;; ret (extract_abstract_from_arxiv w url).
Definition call_url (url : string) : M string :=
  note (Call_url url) ;;; ret (extract_abstract_from_url w url).
Definition call_title (url : string) : M string :=
  note (Call_title url) ;;; ret (extract_title_from_url w url).
Definition call_alternative (title : string) : M string :=
  note (Call_alternative title) ;;; ret (extract_abstract_alternative w title).
Definition call_text (text : string) : M string :=
  note Call_text ;;; ret (extract_abstract_from_text text).

(** [source.startswith(('http', 'doi.org', 'www.'))] *)
Definition is_web (source : string) : bool :=
  startswith "http" source || startswith "doi.org" source || startswith "www." source.

(** The [if / elif / elif] at the head of the loop body. *)
Definition dispatch (source : string) : M unit :=
  if startswith "arXiv:" source then
    let arxiv_id := split_last ":" source in
    let url := "https://arxiv.org/abs/" ++ arxiv_id in
    r <- call_arxiv url ;;
    set_title (fst r) ;;; set_abstract (snd r)
  else if contains "arxiv.org" source then
    r <- call_arxiv source ;;
    set_title (fst r) ;;; set_abstract (snd r)
  else if is_web source then
    a <- call_url source ;;
    set_abstract a ;;;
    t <- call_title source ;;
    set_title t
  else ret tt.

(** The two [if not abstract] blocks and the assignment to
    [self.metadata[source]]. *)
Definition fallback (text source : string) : M unit :=
  a <- read_abstract ;;
  when (negb (truthy a))
    (t <- call_title source ;;
     set_title t ;;;
     t' <- read_title ;;
     a' <- call_alternative t' ;;
     set_abstract a') ;;;
  a <- read_abstract ;;
  when (negb (truthy a))
    (a' <- call_text text ;;
     set_abstract a') ;;;
  t <- read_title ;;
  a <- read_abstract ;;
  store source (record t a).

(** The body of the [try] of the loop. *)
Definition resolve (text source : string) : M unit :=
  dispatch source ;;; fallback text source.

(** One iteration of the loop. *)
Definition process_source (text source : string) : M unit :=
  try_except (resolve text source) (fun _ => store source failed_record).

Definition fresh_locals (st : State) : State :=
  with_title None (with_abstract None st).

Definition process_links_and_dois (text : string)
    (links dois arxiv_ids : list string) : M unit :=
  modify fresh_locals ;;;
  for_each (links ++ dois ++ arxiv_ids)%list (process_source text).

(** *** Reports *)

(** [source[:100] + '...' if len(source) > 100 else source] *)
Definition truncated_source (source : string) : string :=
  if 100 <? String.length source then str_take 100 source ++ "..." else source.

(** [info.get('abstract', 'No abstract available')] *)
Definition abstract_of (i : info) : string :=
  Dict.get_default "abstract" "No abstract available" i.

(** The two cells and the line break written for one entry of the PDF. *)
Definition pdf_entry (idx : nat) (source : string) (i : info) : list pdf_op :=
  [ Cell (str_of_nat idx ++ ". Source: " ++ truncated_source source);
    MultiCell ("Abstract: " ++ str_take 500 (abstract_of i) ++ "...");
    Ln 5 ].

(** [for idx, (source, info) in enumerate(items, start=idx)] *)
Fixpoint pdf_entries (idx : nat) (items : metadata_t) : list pdf_op :=
  match items with
  | [] => []
  | (source, i) :: rest => (pdf_entry idx source i ++ pdf_entries (S idx) rest)%list
  end.

Definition pdf_document (m : metadata_t) : list pdf_op :=
  ([Cell "Extracted Links, Titles, and Abstracts"; Ln 10] ++ pdf_entries 1 m)%list.

(** [str(e)] *)
Definition exn_message (e : exn) : string :=
  match e with
  | PermissionError msg => msg
  | IOError msg => msg
  | OtherError msg => msg
  | UnboundLocalError name =>
      "local variable '" ++ name ++ "' referenced before assignment"
  end.

(** The three [except] clauses of [create_output_pdf]. *)
Definition report_pdf_error (path : string) (e : exn) : M unit :=
  match e with
  | PermissionError _ =>
      print ("Error: Cannot write to " ++ path ++ ". Check file permissions.")
  | IOError msg => print ("IO Error: " ++ msg)
  | _ => print ("Unexpected error: " ++ exn_message e)
  end.

Definition lift_exn (e : option exn) : M unit :=
  match e with
  | Some x => raise x
  | None => ret tt
  end.

Definition save (path : string) (d : document) : M unit :=
  lift_exn (write_file w path) ;;;
  modify (fun st => with_files (files st ++ [(path, d)])%list st).

Definition is_empty {A : Type} (l : list A) : bool :=
  match l with
  | [] => true
  | _ :: _ => false
  end.

Definition create_output_pdf (output_pdf_path : string) : M unit :=
  try_except
    (fun st =>
       if is_empty (metadata st) then
         print "No links or abstracts found to generate PDF." st
       else
         (lift_exn (add_font w) ;;;
          save output_pdf_path (PdfDoc (pdf_document (metadata st))) ;;;
          print ("PDF successfully generated at " ++ output_pdf_path)) st)
    (report_pdf_error output_pdf_path).

(** One row of the HTML table. *)
Record html_row := {
  row_index : nat;
  row_name : string;
  row_abstract : string;
  row_link : string
}.

Definition html_row_of (idx : nat) (source : string) (i : info) : html_row :=
  {| row_index := idx;
     row_name := extract_title_from_url w source;
     row_abstract := str_take 500 (abstract_of i) ++ "...";
     row_link := "<a href='" ++ source ++ "' target='_blank'>" ++ source ++ "</a>" |}.

Fixpoint html_rows (idx : nat) (items : metadata_t) : list html_row :=
  match items with
  | [] => []
  | (source, i) :: rest => html_row_of idx source i :: html_rows (S idx) rest
  end.

Definition render_row (r : html_row) : string :=
  "
                    <tr>
                        <td>" ++ str_of_nat (row_index r) ++ "</td>
                        <td>" ++ row_name r ++ "</td>
                        <td>" ++ row_abstract r ++ "</td>
                        <td>" ++ row_link r ++ "</td>
                    </tr>
                ".

Definition html_head : string :=
  "
            <!DOCTYPE html>
            <html lang=" ++ dquote ++ "en" ++ dquote ++ ">
            <head>
                <meta charset=" ++ dquote ++ "UTF-8" ++ dquote ++ ">
                <meta name=" ++ dquote ++ "viewport" ++ dquote ++ " content="
  ++ dquote ++ "width=device-width, initial-scale=1.0" ++ dquote ++ ">
                <title>Extracted Research Papers</title>
                <style>
                    body { font-family: Arial, sans-serif; margin: 20px; }
                    table { width: 100%; border-collapse: collapse; margin-top: 20px; }
                    th, td { border: 1px solid #ddd; padding: 8px; text-align: left; }
                    th { background-color: #f4f4f4; }
                    tr:nth-child(even) { background-color: #f9f9f9; }
                    tr:hover { background-color: #f1f1f1; }
                    a { color: #007BFF; text-decoration: none; }
                    a:hover { text-decoration: underline; }
                </style>
            </head>
            <body>
                <h1>Extracted Research Papers</h1>
                <table>
                    <thead>
                        <tr>
                            <th>Index</th>
                            <th>Name of the Paper</th>
                            <th>Abstract</th>
                            <th>Link</th>
                        </tr>
                    </thead>
                    <tbody>
            ".

Definition html_tail : string :=
  "
                    </tbody>
                </table>
            </body>
            </html>
            ".

Definition html_document (m : metadata_t) : string :=
  html_head ++ String.concat EmptyString (map render_row (html_rows 1 m)) ++ html_tail.

Definition create_output_html (html_output_path : string) : M unit :=
  try_except
    (fun st =>
       if is_empty (metadata st) then
         print "No metadata found to generate HTML." st
       else
         (save html_output_path (HtmlDoc (html_document (metadata st))) ;;;
          print ("HTML successfully generated at " ++ html_output_path)) st)
    (fun e => print ("Unexpected error: " ++ exn_message e)).

(** *** The pipeline *)

Definition extract_text_from_pdf (input_pdf_path : string) : string :=
  match pdf_pages w input_pdf_path with
  | Some pages => String.concat EmptyString pages
  | None => EmptyString
  end.

Definition workflow (input_pdf_path output_pdf_path : string) : M unit :=
  try_except
    (let text := extract_text_from_pdf input_pdf_path in
     let '(links, dois, arxiv_ids) := extract_links_and_dois text in
     process_links_and_dois text links dois arxiv_ids ;;;
     create_output_pdf output_pdf_path ;;;
     let html_output_path := replace ".pdf" ".html" output_pdf_path in
     create_output_html html_output_path ;;;
     print ("Extraction complete. Outputs saved to PDF: " ++ output_pdf_path
            ++ " and HTML: " ++ html_output_path))
    (fun _ => ret tt).

End Extractor.

(** ** Sample worlds and inputs *)

Definition sample_text : string :=
  "See https://example.com/paper.pdf, and DOI 10.1000/xyz123 for details. arXiv:2301.01234 is also relevant.".

Definition sample_link : string := "https://example.com/paper.pdf".
Definition sample_doi : string := "10.1000/xyz123".
Definition sample_arxiv : string := "arXiv:2301.01234".

(** No network, no readable PDF: every request raises. *)
Definition offline : World :=
  {| requests_get := fun _ _ => None;
     html_parser := fun _ => [];
     quote := fun s => s;
     crossref_items := fun _ => None;
     semantic_papers := fun _ => None;
     pdf_pages := fun _ => None;
     add_font := None;
     write_file := fun _ => None |}.

(** The element [<meta name="description" content="A study of X.">]. *)
Definition meta_tag : Tag :=
  {| tag_name := "meta";
     tag_attrs := [("name", "description"); ("content", "A study of X.")];
     tag_classes := [];
     tag_text := EmptyString |}.

Definition meta_page : string :=
  "<meta name=" ++ dquote ++ "description" ++ dquote
  ++ " content=" ++ dquote ++ "A study of X." ++ dquote ++ ">".

(** Every page answers 200 with [meta_page], which holds [meta_tag] and
    nothing else; the two APIs answer 200 with no entry. *)
Definition meta_world : World :=
  {| requests_get := fun _ _ => Some {| status_code := 200; text := meta_page |};
     html_parser := fun body => if String.eqb body meta_page then [meta_tag] else [];
     quote := fun s => s;
     crossref_items := fun _ => Some [];
     semantic_papers := fun _ => Some [];
     pdf_pages := fun _ => Some [sample_text];
     add_font := None;
     write_file := fun _ => None |}.

(** Every request answers 200 with its own URL as body. An arXiv page
    holds a title and an abstract block that is empty after its label;
    other pages hold nothing. Crossref returns one entry with an abstract. *)
Definition empty_arxiv_world : World :=
  {| requests_get := fun url _ => Some {| status_code := 200; text := url |};
     html_parser := fun body =>
       if contains "arxiv.org/abs/" body then
         [ {| tag_name := "h1"; tag_attrs := []; tag_classes := ["title"; "mathjax"];
              tag_text := "Title: On Proofs" |};
           {| tag_name := "blockquote"; tag_attrs := []; tag_classes := ["abstract"];
              tag_text := "Abstract:   " |} ]
       else [];
     quote := fun s => s;
     crossref_items := fun _ => Some [Some "An abstract found by Crossref."];
     semantic_papers := fun _ => Some [];
     pdf_pages := fun _ => Some [];
     add_font := None;
     write_file := fun _ => None |}.

(** What [process_links_and_dois] leaves in [self.metadata] on a new
    extractor. *)
Definition metadata_after (w : World) (text : string)
    (links dois arxiv_ids : list string) : metadata_t :=
  metadata (snd (process_links_and_dois w text links dois arxiv_ids init_state)).

(** No white space at either end of an entry. *)
Definition no_outer_space (e : string) : Prop :=
  (forall c, head_char e = Some c -> is_space c = false) /\
  (forall c, last_char e = Some c -> is_space c = false).

(** The references that the [if / elif / elif] of the loop handles. *)
Definition dispatched (source : string) : bool :=
  startswith "arXiv:" source || contains "arxiv.org" source || is_web source.

(** A pattern whose every element excludes white space. *)
Definition spaceless (p : pattern) : Prop :=
  Forall (fun a => forall c, cls a c = true -> not_space c = true) p.

(** A record that binds both keys. *)
Definition has_both_keys (i : info) : Prop :=
  exists title abstract,
    Dict.get "title" i = Some title /\ Dict.get "abstract" i = Some abstract.

(** Sixty spaces. *)
Definition blank_content : string :=
  "                                                            ".

(** Every page answers 200 and holds one description <meta> element whose
    content is [blank_content]; Crossref returns one entry with an
    abstract. *)
Definition blank_description_world : World :=
  {| requests_get := fun _ _ => Some {| status_code := 200; text := EmptyString |};
     html_parser := fun _ =>
       [ {| tag_name := "meta";
            tag_attrs := [("name", "description"); ("content", blank_content)];
            tag_classes := []; tag_text := EmptyString |} ];
     quote := fun s => s;
     crossref_items := fun _ => Some [Some "An abstract found by Crossref."];
     semantic_papers := fun _ => Some [];
     pdf_pages := fun _ => Some [];
     add_font := None;
     write_file := fun _ => None |}.

(** White space inside a cleaned abstract is the single space character. *)
Definition plain_space (c : ascii) : bool := negb (is_space c) || Ascii.eqb c " ".

(** [m] occurs in [s] as a contiguous piece. *)
Definition occurs_in (m s : string) : Prop :=
  exists before after, s = before ++ m ++ after.

(** No exception. *)
Definition succeeds (e : option exn) : bool :=
  match e with
  | None => true
  | Some _ => false
  end.

(** * Properties *)

(** ** The model on small inputs *)

Example strip_chars_trailing :
  strip_chars ",.()[]" "https://example.com/paper.pdf)." = "https://example.com/paper.pdf".
Proof. reflexivity. Qed.

Example strip_chars_interior : strip_chars ",.()[]" "www.a(b).c" = "www.a(b).c".
Proof. reflexivity. Qed.

Example strip_white_space :
  strip (String newline "  A study of X. ") = "A study of X.".
Proof. reflexivity. Qed.

Example split_last_colon : split_last ":" "arXiv:2301.01234" = "2301.01234".
Proof. reflexivity. Qed.

Example split_last_slash : split_last "/" "https://example.com/paper.pdf" = "paper.pdf".
Proof. reflexivity. Qed.

Example split_last_none : split_last "/" "10.1000" = "10.1000".
Proof. reflexivity. Qed.

Example replace_label : replace "Title:" EmptyString "Title: On Proofs" = " On Proofs".
Proof. reflexivity. Qed.

Example replace_suffix : replace ".pdf" ".html" "out.pdf" = "out.html".
Proof. reflexivity. Qed.

Example collapse_runs :
  collapse_spaces (String "a" (String newline (String " " "b  c"))) = "a b c".
Proof. reflexivity. Qed.

Example findall_backtracks :
  findall arxiv_pattern "arXiv:2301.012345 arXiv:23.1 arXiv:0704.0001" =
  ["arXiv:2301.01234"; "arXiv:0704.0001"].
Proof. vm_compute. reflexivity. Qed.

Example findall_doi_digits :
  findall doi_pattern "10.12/x 10.1234567890/y 10.1000/a,b" = ["10.1000/a"].
Proof. vm_compute. reflexivity. Qed.

Example findall_http_and_https :
  findall link_http "(http://a.org) https://b.org/x." = ["http://a.org)"; "https://b.org/x."].
Proof. vm_compute. reflexivity. Qed.

Example duplicates_removed :
  extract_links_and_dois "www.a.org, www.a.org. 10.1000/x 10.1000/x" =
  (["www.a.org"], ["10.1000/x"], []).
Proof. vm_compute. reflexivity. Qed.

Example heuristic_labelled :
  extract_abstract_from_text
    ("A Title" ++ String newline
       ("ABSTRACT:  We study the resolution of references found in research papers."
        ++ String newline "Introduction"))
  = "We study the resolution of references found in research papers.".
Proof. vm_compute. reflexivity. Qed.

Example heuristic_block :
  extract_abstract_from_text
    "A block of plain text that is long enough to be taken as the abstract.  References [1]"
  = "A block of plain text that is long enough to be taken as the abstract.".
Proof. vm_compute. reflexivity. Qed.

Example heuristic_nothing :
  extract_abstract_from_text "Abstract: too short" = "No abstract found in text".
Proof. vm_compute. reflexivity. Qed.

Example empty_first_stage_falls_back :
  extract_abstract_from_arxiv empty_arxiv_world "https://arxiv.org/abs/2301.01234"
  = ("On Proofs", EmptyString) /\
  snd (process_links_and_dois empty_arxiv_world EmptyString [] [] [sample_arxiv] init_state)
  = {| metadata :=
         [(sample_arxiv, record "arXiv:2301.01234" "An abstract found by Crossref.")];
       v_title := Some "arXiv:2301.01234";
       v_abstract := Some "An abstract found by Crossref.";
       stdout := []; files := [];
       calls := [ Call_arxiv "https://arxiv.org/abs/2301.01234";
                  Call_title sample_arxiv;
                  Call_alternative "arXiv:2301.01234" ] |}.
Proof. vm_compute. split; reflexivity. Qed.

Example readable_pdf_run :
  stdout (snd (workflow meta_world "paper.pdf" "out.pdf" init_state))
  = [ "PDF successfully generated at out.pdf";
      "HTML successfully generated at out.html";
      "Extraction complete. Outputs saved to PDF: out.pdf and HTML: out.html" ] /\
  map fst (files (snd (workflow meta_world "paper.pdf" "out.pdf" init_state)))
  = ["out.pdf"; "out.html"] /\
  Dict.keys (metadata (snd (workflow meta_world "paper.pdf" "out.pdf" init_state)))
  = [sample_link; sample_doi; sample_arxiv].
Proof. vm_compute. repeat split. Qed.

(** ** Strings *)

Section StringFacts.

Lemma str_take_length n s : n <= String.length s -> String.length (str_take n s) = n.
Proof.
  revert s; induction n as [|n IH]; intros [|c s] H; simpl in *; try lia.
  rewrite IH; lia.
Qed.

Lemma str_take_bound n s : String.length (str_take n s) <= n.
Proof.
  revert s; induction n as [|n IH]; intros [|c s]; simpl; try lia.
  specialize (IH s); lia.
Qed.

Lemma str_drop_length n s : String.length (str_drop n s) = String.length s - n.
Proof.
  revert s; induction n as [|n IH]; intros [|c s]; simpl; try lia.
  apply IH.
Qed.

Lemma str_take_add n m s :
  str_take (n + m) s = str_take n s ++ str_take m (str_drop n s).
Proof.
  revert s; induction n as [|n IH]; intros s; simpl.
  - reflexivity.
  - destruct s as [|c s]; simpl.
    + destruct m; reflexivity.
    + now rewrite IH.
Qed.

Lemma str_drop_add n m s : str_drop (n + m) s = str_drop m (str_drop n s).
Proof.
  revert s; induction n as [|n IH]; intros s; simpl.
  - reflexivity.
  - destruct s as [|c s]; simpl.
    + destruct m; reflexivity.
    + apply IH.
Qed.

Lemma str_take_drop n s : str_take n s ++ str_drop n s = s.
Proof.
  revert s; induction n as [|n IH]; intros [|c s]; simpl; try reflexivity.
  now rewrite IH.
Qed.

Lemma append_length s t : String.length (s ++ t) = String.length s + String.length t.
Proof. induction s as [|c s IH]; simpl; [reflexivity | now rewrite IH]. Qed.

Lemma all_chars_app p s t :
  all_chars p (s ++ t) = all_chars p s && all_chars p t.
Proof.
  induction s as [|c s IH]; simpl; [reflexivity|].
  now rewrite IH, andb_assoc.
Qed.

Lemma all_chars_take p n s :
  all_chars p s = true -> all_chars p (str_take n s) = true.
Proof.
  revert s; induction n as [|n IH]; intros [|c s] H; simpl in *; try reflexivity.
  apply andb_true_iff in H as [Hc Hs]. rewrite Hc. now apply IH.
Qed.

Lemma all_chars_take_le p n k s :
  k <= n -> all_chars p (str_take n s) = true -> all_chars p (str_take k s) = true.
Proof.
  revert n s; induction k as [|k IH]; intros n s Hk H.
  - destruct s; reflexivity.
  - destruct n as [|n]; [lia|]. destruct s as [|c s]; simpl in *; [reflexivity|].
    apply andb_true_iff in H as [Hc Hs]. rewrite Hc. apply (IH n); [lia | exact Hs].
Qed.

Lemma all_chars_weaken (p q : ascii -> bool) s :
  (forall c, p c = true -> q c = true) -> all_chars p s = true -> all_chars q s = true.
Proof.
  intros Hpq; induction s as [|c s IH]; simpl; [reflexivity|].
  intros H; apply andb_true_iff in H as [Hc Hs].
  rewrite (Hpq _ Hc). now apply IH.
Qed.

Lemma all_chars_head p s c : all_chars p s = true -> head_char s = Some c -> p c = true.
Proof.
  destruct s as [|d s]; simpl; [discriminate|].
  intros H E; inversion E; subst. now apply andb_true_iff in H.
Qed.

Lemma all_chars_last p s c : all_chars p s = true -> last_char s = Some c -> p c = true.
Proof.
  induction s as [|d s IH]; [discriminate|].
  intros H E. simpl in H. apply andb_true_iff in H as [Hd Hs].
  destruct s as [|e s].
  - inversion E; subst. exact Hd.
  - apply IH; [exact Hs | exact E].
Qed.

Lemma all_chars_lstrip p q s :
  all_chars q s = true -> all_chars q (lstrip_by p s) = true.
Proof.
  induction s as [|c s IH]; simpl; [reflexivity|].
  intros H. destruct (p c).
  - apply IH. now apply andb_true_iff in H.
  - exact H.
Qed.

Lemma all_chars_rstrip p q s :
  all_chars q s = true -> all_chars q (rstrip_by p s) = true.
Proof.
  induction s as [|c s IH]; simpl; [reflexivity|].
  intros H. apply andb_true_iff in H as [Hc Hs]. specialize (IH Hs).
  destruct (rstrip_by p s) as [|d r].
  - destruct (p c); simpl; [reflexivity | now rewrite Hc].
  - simpl. rewrite Hc. exact IH.
Qed.

Lemma all_chars_strip p q s :
  all_chars q s = true -> all_chars q (strip_by p s) = true.
Proof. intros H. apply all_chars_rstrip, all_chars_lstrip, H. Qed.

(** What [rstrip] leaves does not end with a stripped character. *)
Lemma rstrip_last p s c : last_char (rstrip_by p s) = Some c -> p c = false.
Proof.
  induction s as [|d s IH]; simpl; [discriminate|].
  destruct (rstrip_by p s) as [|e r] eqn:E.
  - destruct (p d) eqn:Hd; simpl; [discriminate|].
    intros H; inversion H; subst. exact Hd.
  - intros H. apply IH. exact H.
Qed.

Lemma strip_last p s c : last_char (strip_by p s) = Some c -> p c = false.
Proof. apply rstrip_last. Qed.

Lemma append_empty_r s : s ++ EmptyString = s.
Proof. induction s as [|c s IH]; simpl; [reflexivity | now rewrite IH]. Qed.

Lemma append_assoc (s t u : string) : (s ++ t) ++ u = s ++ (t ++ u).
Proof. induction s as [|c s IH]; simpl; [reflexivity | now rewrite IH]. Qed.

End StringFacts.

(** ** The matcher is sound *)

Section MatcherFacts.

Lemma run_spec p h s : forall t,
  let n := run p h t s in
  t <= n /\ n - t <= String.length s /\
  all_chars p (str_take (n - t) s) = true /\
  (forall m, h = Some m -> t <= m -> n <= m).
Proof.
  induction s as [|c s IH]; intros t; simpl.
  - rewrite Nat.sub_diag. simpl. repeat split; try lia.
  - destruct (p c && within h t) eqn:E.
    + apply andb_true_iff in E as [Hc Hw].
      destruct (IH (S t)) as (H1 & H2 & H3 & H4).
      replace (run p h (S t) s - t) with (S (run p h (S t) s - S t)) by lia.
      simpl. rewrite Hc, H3. repeat split; try lia.
      intros m Hm Ht. apply H4; [exact Hm|].
      subst h. simpl in Hw. apply Nat.ltb_lt in Hw. lia.
    + rewrite Nat.sub_diag. simpl. repeat split; try lia.
Qed.

Lemma backoff_spec {A : Type} (k : string -> option A) s l : forall n n1 r,
  l <= n -> backoff k s l n = Some (n1, r) ->
  l <= n1 /\ n1 <= n /\ k (str_drop n1 s) = Some r.
Proof.
  induction n as [|n IH]; intros n1 r Hl; cbn [backoff].
  - destruct (k (str_drop 0 s)) eqn:E; [|discriminate].
    intros H; inversion H; subst. repeat split; [lia | lia | exact E].
  - destruct (k (str_drop (S n) s)) eqn:E.
    + intros H; inversion H; subst. repeat split; [lia | lia | exact E].
    + destruct (l <=? n) eqn:L; [|discriminate].
      apply Nat.leb_le in L. intros H.
      destruct (IH _ _ L H) as (H1 & H2 & H3). repeat split; [lia | lia | exact H3].
Qed.

Lemma match_then_sound {A : Type} (k : string -> option A) p : forall s n r,
  match_then p k s = Some (n, r) ->
  Matches p (str_take n s) /\ n <= String.length s /\ k (str_drop n s) = Some r.
Proof.
  induction p as [|a p IH]; intros s n r; simpl.
  - destruct (k s) eqn:E; simpl; [|discriminate].
    intros H; inversion H; subst.
    split; [|split; [lia|]].
    + destruct s; constructor.
    + destruct s; exact E.
  - destruct (lo a <=? run (cls a) (hi a) 0 s) eqn:L; [|discriminate].
    apply Nat.leb_le in L.
    destruct (backoff (match_then p k) s (lo a) (run (cls a) (hi a) 0 s))
      as [[n1 [n2 r']]|] eqn:B; [|discriminate].
    intros H; inversion H; subst; clear H.
    destruct (backoff_spec _ _ _ _ _ _ L B) as (H1 & H2 & H3).
    destruct (IH _ _ _ H3) as (M & Hn & Hk).
    destruct (run_spec (cls a) (hi a) s 0) as (_ & R2 & R3 & R4).
    rewrite Nat.sub_0_r in R2, R3.
    rewrite str_drop_length in Hn.
    split; [|split].
    + rewrite str_take_add. constructor.
      * apply (all_chars_take_le _ _ _ _ H2 R3).
      * rewrite str_take_length; lia.
      * intros m Hm. rewrite str_take_length by lia.
        specialize (R4 m Hm). lia.
      * exact M.
    + lia.
    + rewrite str_drop_add. exact Hk.
Qed.

Lemma match_here_sound p s n :
  match_here p s = Some n -> Matches p (str_take n s).
Proof.
  unfold match_here.
  destruct (match_then p (fun _ => Some tt) s) as [[m r]|] eqn:E; simpl; [|discriminate].
  intros H; inversion H; subst. apply (match_then_sound _ _ _ _ _ E).
Qed.

(** Every string returned by [findall] matches the pattern as a whole. *)
Lemma findall_from_sound p s : forall skip m,
  In m (findall_from skip p s) -> Matches p m.
Proof.
  induction s as [|c s IH]; intros skip m.
  - destruct skip; simpl; [|contradiction].
    destruct (match_here p EmptyString) as [[|n]|] eqn:E; simpl; try contradiction.
    intros [H|[]]. subst. apply (match_here_sound _ _ _ E).
  - destruct skip; simpl.
    + destruct (match_here p (String c s)) as [[|n]|] eqn:E; simpl; try apply IH.
      intros [H|H]; [|apply (IH _ _ H)].
      subst. apply (match_here_sound _ _ _ E).
    + apply IH.
Qed.

Lemma findall_sound p s m : In m (findall p s) -> Matches p m.
Proof. apply findall_from_sound. Qed.

(** A class that holds for every element of the pattern holds for every
    character of a match. *)
Lemma Matches_all_chars q p m :
  Forall (fun a => forall c, cls a c = true -> q c = true) p ->
  Matches p m -> all_chars q m = true.
Proof.
  intros Hp M; induction M as [|a p u v Hu _ _ _ IH]; [reflexivity|].
  inversion Hp; subst.
  rewrite all_chars_app, IH by assumption.
  rewrite (all_chars_weaken (cls a) q u); auto.
Qed.

End MatcherFacts.

(** ** The loop of [process_links_and_dois] *)

Section LoopFacts.

Variable w : World.

Lemma first_abstract_truthy items a : first_abstract items = Some a -> truthy a = true.
Proof.
  destruct items as [|[b|] items]; simpl; try discriminate.
  destruct (truthy b) eqn:E; [|discriminate].
  intros H; inversion H; subst. exact E.
Qed.

Lemma api_attempt_truthy url decode a :
  api_attempt w url decode = Found a -> truthy a = true.
Proof.
  unfold api_attempt.
  destruct (requests_get w url false) as [r|]; [|discriminate].
  destruct (status_code r =? 200); [|discriminate].
  destruct (decode (text r)) as [items|]; [|discriminate].
  destruct (first_abstract items) as [b|] eqn:E; [|discriminate].
  intros H; inversion H; subst. apply (first_abstract_truthy _ _ E).
Qed.

(** The API stage never returns the empty string. *)
Lemma alternative_truthy title : truthy (extract_abstract_alternative w title) = true.
Proof.
  unfold extract_abstract_alternative.
  destruct (api_attempt w _ (crossref_items w)) eqn:E1.
  - apply (api_attempt_truthy _ _ _ E1).
  - destruct (api_attempt w _ (semantic_papers w)) eqn:E2.
    + apply (api_attempt_truthy _ _ _ E2).
    + reflexivity.
    + reflexivity.
  - reflexivity.
Qed.

Lemma truthy_true_iff s : truthy s = true <-> s <> EmptyString.
Proof. destruct s; simpl; split; congruence. Qed.

Lemma fallback_unbound text source st :
  v_abstract st = None ->
  fallback w text source st = (Raise (UnboundLocalError "abstract"), st).
Proof.
  intros H. unfold fallback, bind, read_abstract. rewrite H. reflexivity.
Qed.

Lemma fallback_kept text source st t a :
  v_title st = Some t -> v_abstract st = Some a -> truthy a = true ->
  fallback w text source st =
  (Ok tt, with_metadata (Dict.set source (record t a) (metadata st)) st).
Proof.
  intros Ht Ha Hy. unfold fallback, bind, read_abstract, read_title, when.
  rewrite Ha, Hy. simpl. rewrite Ha, Hy. simpl. rewrite Ht, Ha. reflexivity.
Qed.

Lemma fallback_no_title text source st a :
  v_title st = None -> v_abstract st = Some a -> truthy a = true ->
  fallback w text source st = (Raise (UnboundLocalError "title"), st).
Proof.
  intros Ht Ha Hy. unfold fallback, bind, read_abstract, read_title, when.
  rewrite Ha, Hy. simpl. rewrite Ha, Hy. simpl. rewrite Ht. reflexivity.
Qed.

Lemma fallback_empty text source st :
  v_abstract st = Some EmptyString ->
  let t1 := extract_title_from_url w source in
  let a1 := extract_abstract_alternative w t1 in
  exists st',
    fallback w text source st = (Ok tt, st') /\
    metadata st' = Dict.set source (record t1 a1) (metadata st) /\
    calls st' = (calls st ++ [Call_title source; Call_alternative t1])%list /\
    stdout st' = stdout st /\ files st' = files st /\
    v_title st' = Some t1 /\ v_abstract st' = Some a1.
Proof.
  intros Ha t1 a1.
  pose proof (alternative_truthy t1) as Hy. fold a1 in Hy.
  unfold fallback, bind, read_abstract, read_title, when.
  rewrite Ha. simpl. fold t1. fold a1. rewrite Hy. simpl.
  eexists. split; [reflexivity|]. simpl.
  rewrite <- app_assoc. repeat split.
Qed.

Lemma record_has_both_keys t a : has_both_keys (record t a).
Proof. exists t, a. split; reflexivity. Qed.

Lemma failed_record_has_both_keys : has_both_keys failed_record.
Proof. eexists; eexists; split; reflexivity. Qed.

(** What the [if / elif / elif] leaves in the local variables. *)
Lemma dispatch_spec source st :
  exists st1,
    dispatch w source st = (Ok tt, st1) /\
    metadata st1 = metadata st /\ stdout st1 = stdout st /\ files st1 = files st /\
    ((startswith "arXiv:" source = true /\
      let url := "https://arxiv.org/abs/" ++ split_last ":" source in
      v_title st1 = Some (fst (extract_abstract_from_arxiv w url)) /\
      v_abstract st1 = Some (snd (extract_abstract_from_arxiv w url)) /\
      calls st1 = (calls st ++ [Call_arxiv url])%list)
     \/
     (startswith "arXiv:" source = false /\ contains "arxiv.org" source = true /\
      v_title st1 = Some (fst (extract_abstract_from_arxiv w source)) /\
      v_abstract st1 = Some (snd (extract_abstract_from_arxiv w source)) /\
      calls st1 = (calls st ++ [Call_arxiv source])%list)
     \/
     (startswith "arXiv:" source = false /\ contains "arxiv.org" source = false /\
      is_web source = true /\
      v_title st1 = Some (extract_title_from_url w source) /\
      v_abstract st1 = Some (extract_abstract_from_url w source) /\
      calls st1 = (calls st ++ [Call_url source; Call_title source])%list)
     \/
     (dispatched source = false /\ st1 = st)).
Proof.
  unfold dispatch, dispatched.
  destruct (startswith "arXiv:" source) eqn:E1.
  - eexists. split; [reflexivity|]. simpl. repeat split. left. repeat split.
  - destruct (contains "arxiv.org" source) eqn:E2.
    + eexists. split; [reflexivity|]. simpl. repeat split.
      right; left. repeat split.
    + destruct (is_web source) eqn:E3.
      * eexists. split; [reflexivity|]. simpl. repeat split.
        right; right; left. rewrite <- app_assoc. repeat split.
      * exists st. split; [reflexivity|]. repeat split.
        right; right; right. split; reflexivity.
Qed.

(** One iteration never raises and stores a record with both keys. *)
Lemma process_source_spec text source st :
  exists i st',
    process_source w text source st = (Ok tt, st') /\
    metadata st' = Dict.set source i (metadata st) /\
    has_both_keys i /\
    stdout st' = stdout st /\ files st' = files st.
Proof.
  unfold process_source, try_except, resolve, bind.
  destruct (dispatch_spec source st) as (st1 & D & Hm & Ho & Hf & _).
  rewrite D.
  destruct (v_abstract st1) as [a|] eqn:Ha.
  - destruct (truthy a) eqn:Hy.
    + destruct (v_title st1) as [t|] eqn:Ht.
      * rewrite (fallback_kept _ _ _ _ _ Ht Ha Hy).
        eexists; eexists. split; [reflexivity|]. simpl. rewrite Hm.
        split; [reflexivity|]. split; [apply record_has_both_keys|]. split; assumption.
      * rewrite (fallback_no_title _ _ _ _ Ht Ha Hy).
        eexists; eexists. split; [reflexivity|]. simpl. rewrite Hm.
        split; [reflexivity|]. split; [apply failed_record_has_both_keys|].
        split; assumption.
    + destruct a; [|discriminate].
      destruct (fallback_empty text source st1 Ha) as (st' & F & Fm & _ & Fo & Ff & _).
      rewrite F. eexists; exists st'. split; [reflexivity|]. rewrite Fm, Hm.
      split; [reflexivity|]. split; [apply record_has_both_keys|].
      split; congruence.
  - rewrite (fallback_unbound _ _ _ Ha).
    eexists; eexists. split; [reflexivity|]. simpl. rewrite Hm.
    split; [reflexivity|]. split; [apply failed_record_has_both_keys|].
    split; assumption.
Qed.

(** A reference of a handled shape leaves both variables bound, and the
    calls made for it do not include the in-document heuristic. *)
Lemma dispatch_binds source st :
  dispatched source = true ->
  exists st1 t0 a0 cs,
    dispatch w source st = (Ok tt, st1) /\
    metadata st1 = metadata st /\
    v_title st1 = Some t0 /\ v_abstract st1 = Some a0 /\
    calls st1 = (calls st ++ cs)%list /\ ~ In Call_text cs.
Proof.
  intros Hd.
  destruct (dispatch_spec source st) as (st1 & D & Hm & _ & _ & Hcase).
  exists st1.
  destruct Hcase as [(_ & H1 & H2 & H3)|[(_ & _ & H1 & H2 & H3)|[(_ & _ & _ & H1 & H2 & H3)|(H & _)]]].
  - do 3 eexists. repeat split; eauto. intros [H|[]]; discriminate.
  - do 3 eexists. repeat split; eauto. intros [H|[]]; discriminate.
  - do 3 eexists. repeat split; eauto. intros [H|[H|[]]]; discriminate.
  - congruence.
Qed.

End LoopFacts.

(** ** Dictionaries *)

Section DictFacts.

Context {V : Type}.

Lemma get_set_same (k : string) (v : V) d : Dict.get k (Dict.set k v d) = Some v.
Proof.
  induction d as [|[k' v'] d IH]; simpl.
  - now rewrite String.eqb_refl.
  - destruct (String.eqb k' k) eqn:E; simpl.
    + now rewrite String.eqb_refl.
    + now rewrite E.
Qed.

Lemma get_set_other (k k' : string) (v : V) d :
  k' <> k -> Dict.get k' (Dict.set k v d) = Dict.get k' d.
Proof.
  intros N. induction d as [|[k0 v0] d IH]; simpl.
  - apply String.eqb_neq in N. rewrite String.eqb_sym in N. now rewrite N.
  - destruct (String.eqb k0 k) eqn:E; simpl.
    + apply String.eqb_eq in E; subst k0.
      apply String.eqb_neq in N. rewrite String.eqb_sym in N. now rewrite N.
    + destruct (String.eqb k0 k'); [reflexivity | exact IH].
Qed.

(** An entry of [d] after [d[k] = v] is the new one or an old one. *)
Lemma in_set (k : string) (v : V) d k' v' :
  In (k', v') (Dict.set k v d) -> (k', v') = (k, v) \/ In (k', v') d.
Proof.
  induction d as [|[k0 v0] d IH]; simpl.
  - intros [H|[]]; left; now symmetry.
  - destruct (String.eqb k0 k); simpl.
    + intros [H|H]; [left; now symmetry | right; right; exact H].
    + intros [H|H]; [right; left; exact H |].
      destruct (IH H) as [H'|H']; [left; exact H' | right; right; exact H'].
Qed.

End DictFacts.

Section BatchFacts.

Variable w : World.

Lemma get_in {V : Type} (k : string) (v : V) d : Dict.get k d = Some v -> In (k, v) d.
Proof.
  induction d as [|[k' v'] d IH]; simpl; [discriminate|].
  destruct (String.eqb k' k) eqn:E.
  - apply String.eqb_eq in E; subst. intros H; inversion H; subst. now left.
  - intros H; right; now apply IH.
Qed.

Lemma set_keeps_keys {V : Type} (k k' : string) (v : V) d :
  Dict.get k' d <> None -> Dict.get k' (Dict.set k v d) <> None.
Proof.
  intros H. destruct (string_dec k' k) as [->|N].
  - rewrite get_set_same. discriminate.
  - now rewrite get_set_other.
Qed.

(** The loop runs to its end; every reference it meets has an entry
    afterwards, entries are never removed, and records with both keys stay
    so. *)
Lemma for_each_spec text refs : forall st,
  exists st',
    for_each refs (process_source w text) st = (Ok tt, st') /\
    (forall r, In r refs -> Dict.get r (metadata st') <> None) /\
    (forall k, Dict.get k (metadata st) <> None -> Dict.get k (metadata st') <> None) /\
    ((forall k i, In (k, i) (metadata st) -> has_both_keys i) ->
     forall k i, In (k, i) (metadata st') -> has_both_keys i) /\
    stdout st' = stdout st /\ files st' = files st.
Proof.
  induction refs as [|r refs IH]; intros st.
  - exists st. split; [reflexivity|]. split; [intros r []|]. repeat split; auto.
  - destruct (process_source_spec w text r st) as (i & st1 & P & Pm & Pk & Po & Pf).
    destruct (IH st1) as (st' & F & Fin & Fkeep & Fwf & Fo & Ff).
    exists st'. simpl. unfold bind. rewrite P. split; [exact F|].
    split; [|split; [|split; [|split; congruence]]].
    + intros r' [<-|H]; [|now apply Fin].
      apply Fkeep. rewrite Pm, get_set_same. discriminate.
    + intros k H. apply Fkeep. rewrite Pm. now apply set_keeps_keys.
    + intros H. apply Fwf. intros k j. rewrite Pm. intros Hin.
      destruct (in_set _ _ _ _ _ Hin) as [E|E]; [|apply (H _ _ E)].
      inversion E; subst. exact Pk.
Qed.

Lemma process_links_and_dois_spec text links dois arxiv_ids st :
  exists st',
    process_links_and_dois w text links dois arxiv_ids st = (Ok tt, st') /\
    (forall r, In r (links ++ dois ++ arxiv_ids)%list -> Dict.get r (metadata st') <> None) /\
    ((forall k i, In (k, i) (metadata st) -> has_both_keys i) ->
     forall k i, In (k, i) (metadata st') -> has_both_keys i) /\
    stdout st' = stdout st /\ files st' = files st.
Proof.
  unfold process_links_and_dois, bind, modify.
  destruct (for_each_spec text (links ++ dois ++ arxiv_ids)%list (fresh_locals st))
    as (st' & F & Fin & _ & Fwf & Fo & Ff).
  exists st'. repeat split; try assumption.
Qed.

End BatchFacts.

(** * The specification, claim by claim *)

(** C1, as the code has it. The chain tests the abstract for emptiness
    only. For a reference of one of the three handled shapes, let [a0] be
    the abstract left by the first stage (the arXiv scrape or the webpage
    scrape). If [a0] is not the empty string, be it a sentinel such as
    'Abstract not found' or not, it is the abstract recorded, with the
    title of the first stage, and no further stage is called. If [a0] is
    the empty string, the title is resolved again and the bibliographic
    API stage is called with it; its answer is never empty and is the
    abstract recorded. The in-document heuristic is not called in either
    case. *)
Theorem fallback_on_empty_only (w : World) (text source : string) (st : State) :
  dispatched source = true ->
  exists st1 st' t0 a0,
    dispatch w source st = (Ok tt, st1) /\
    process_source w text source st = (Ok tt, st') /\
    v_title st1 = Some t0 /\ v_abstract st1 = Some a0 /\
    (a0 <> EmptyString ->
       metadata st' = Dict.set source (record t0 a0) (metadata st) /\
       calls st' = calls st1) /\
    (a0 = EmptyString ->
       let t1 := extract_title_from_url w source in
       let a1 := extract_abstract_alternative w t1 in
       a1 <> EmptyString /\
       metadata st' = Dict.set source (record t1 a1) (metadata st) /\
       calls st' = (calls st1 ++ [Call_title source; Call_alternative t1])%list) /\
    ~ In Call_text (skipn (List.length (calls st)) (calls st')).
Proof.
  intros Hd.
  destruct (dispatch_binds w source st Hd) as (st1 & t0 & a0 & cs & D & Hm & Ht & Ha & Hc & Hn).
  unfold process_source, try_except, resolve, bind. rewrite D.
  destruct (truthy a0) eqn:Hy.
  - rewrite (fallback_kept _ _ _ _ _ _ Ht Ha Hy).
    exists st1. eexists. exists t0, a0.
    split; [reflexivity|]. split; [reflexivity|].
    split; [exact Ht|]. split; [exact Ha|]. split; [|split].
    + intros _. simpl. rewrite Hm. split; reflexivity.
    + intros ->. discriminate.
    + simpl. rewrite Hc, skipn_app, skipn_all, Nat.sub_diag. simpl. exact Hn.
  - destruct a0; [|discriminate].
    destruct (fallback_empty w text source st1 Ha) as (st' & F & Fm & Fc & _).
    rewrite F. exists st1, st', t0, EmptyString.
    split; [reflexivity|]. split; [reflexivity|].
    split; [exact Ht|]. split; [exact Ha|]. split; [|split].
    + intros N; now elim N.
    + intros _. split; [apply truthy_true_iff, alternative_truthy|].
      split; [now rewrite Fm, Hm | exact Fc].
    + rewrite Fc, Hc, <- app_assoc, skipn_app, skipn_all, Nat.sub_diag. simpl.
      intros Hin. apply in_app_or in Hin as [Hin|[Hin|[Hin|[]]]];
        [now apply Hn | discriminate | discriminate].
Qed.

(** The sample link in a world where the scrape finds no abstract. *)
Lemma fallback_on_empty_only_witness :
  dispatched sample_link = true /\
  exists st',
    process_source meta_world EmptyString sample_link init_state = (Ok tt, st') /\
    metadata st' = [(sample_link, record "paper.pdf" "Abstract not found")] /\
    calls st' = [Call_url sample_link; Call_title sample_link].
Proof.
  split; [reflexivity|].
  destruct (fallback_on_empty_only meta_world EmptyString sample_link init_state eq_refl)
    as (st1 & st' & t0 & a0 & D & P & Ht & Ha & Hkeep & _).
  exists st'. split; [exact P|].
  inversion D; subst st1. inversion Ht; subst t0. inversion Ha; subst a0.
  destruct Hkeep as [Hm Hc]; [discriminate|]. split; [exact Hm | exact Hc].
Defined.

(** C1, as the claim has it, fails: the webpage scrape of the sample link
    yields the sentinel 'Abstract not found', yet neither the API stage nor
    the in-document heuristic is called, and the sentinel is the abstract
    recorded. *)
Lemma sentinel_kept_counterexample :
  extract_abstract_from_url meta_world sample_link = "Abstract not found" /\
  Dict.get sample_link (metadata_after meta_world sample_text [sample_link] [] [])
  = Some (record "paper.pdf" "Abstract not found") /\
  calls (snd (process_links_and_dois meta_world sample_text [sample_link] [] [] init_state))
  = [Call_url sample_link; Call_title sample_link].
Proof. vm_compute. repeat split. Qed.

(** ** When requests raise *)

Section NoNetwork.

Variable w : World.
Hypothesis down : forall url headers, requests_get w url headers = None.

Lemma arxiv_no_network url :
  extract_abstract_from_arxiv w url = ("Title retrieval error", "Abstract retrieval error").
Proof. unfold extract_abstract_from_arxiv. now rewrite down. Qed.

Lemma url_no_network url :
  extract_abstract_from_url w url = "Abstract extraction failed".
Proof. unfold extract_abstract_from_url. now rewrite down. Qed.

Lemma alternative_no_network title :
  extract_abstract_alternative w title = "Abstract extraction failed".
Proof. unfold extract_abstract_alternative, api_attempt. now rewrite down. Qed.

Lemma title_no_network url :
  contains "arxiv.org" url = false ->
  extract_title_from_url w url =
  if contains "doi.org" url then "DOI Reference: " ++ split_last "/" url
  else "Unknown Title".
Proof.
  intros H. unfold extract_title_from_url. rewrite H.
  destruct (contains "doi.org" url).
  - now rewrite alternative_no_network.
  - now rewrite down.
Qed.

End NoNetwork.

Lemma resolve_raise_metadata w text source st e st2 :
  resolve w text source st = (Raise e, st2) -> metadata st2 = metadata st.
Proof.
  unfold resolve, bind.
  destruct (dispatch_spec w source st) as (st1 & D & Hm & _).
  rewrite D.
  destruct (v_abstract st1) as [a|] eqn:Ha.
  - destruct (truthy a) eqn:Hy.
    + destruct (v_title st1) as [t|] eqn:Ht.
      * rewrite (fallback_kept _ _ _ _ _ _ Ht Ha Hy). discriminate.
      * rewrite (fallback_no_title _ _ _ _ _ Ht Ha Hy).
        intros H; inversion H; subst. exact Hm.
    + destruct a; [|discriminate].
      destruct (fallback_empty w text source st1 Ha) as (st' & F & _).
      rewrite F. discriminate.
  - rewrite (fallback_unbound _ _ _ _ Ha).
    intros H; inversion H; subst. exact Hm.
Qed.

(** C2, as the code has it. Processing a reference never aborts the
    batch: each iteration, and so the whole loop, ends normally. The record
    with abstract 'Failed to get Abstract' and title 'Unknown Title' is
    what is stored when an exception escapes the body of the loop. A
    failure inside a stage does not escape: the stage returns its own
    sentinel, and that is recorded. When every request raises, an arXiv
    reference is recorded with 'Title retrieval error' and 'Abstract
    retrieval error', and any other web reference with abstract 'Abstract
    extraction failed' and title 'Unknown Title' (or 'DOI Reference: ...'
    when it contains 'doi.org'). *)
Theorem failed_stage_records (w : World) (text source : string) (st : State) :
  (exists st', process_source w text source st = (Ok tt, st') /\
     forall e st2, resolve w text source st = (Raise e, st2) ->
       metadata st' = Dict.set source failed_record (metadata st)) /\
  (forall links dois arxiv_ids,
     fst (process_links_and_dois w text links dois arxiv_ids st) = Ok tt) /\
  ((forall url headers, requests_get w url headers = None) ->
   (startswith "arXiv:" source = true \/ contains "arxiv.org" source = true ->
    metadata (snd (process_source w text source st)) =
    Dict.set source (record "Title retrieval error" "Abstract retrieval error")
      (metadata st)) /\
   (startswith "arXiv:" source = false -> contains "arxiv.org" source = false ->
    is_web source = true ->
    metadata (snd (process_source w text source st)) =
    Dict.set source
      (record (if contains "doi.org" source
               then "DOI Reference: " ++ split_last "/" source
               else "Unknown Title")
              "Abstract extraction failed")
      (metadata st))).
Proof.
  split; [|split].
  - destruct (process_source_spec w text source st) as (i & st' & P & _).
    exists st'. split; [exact P|].
    intros e st2 R. revert P. unfold process_source, try_except. rewrite R.
    intros P; inversion P; subst. simpl.
    now rewrite (resolve_raise_metadata _ _ _ _ _ _ R).
  - intros links dois arxiv_ids.
    destruct (process_links_and_dois_spec w text links dois arxiv_ids st) as (st' & P & _).
    now rewrite P.
  - intros down.
    destruct (dispatch_spec w source st) as (st1 & D & Hm & _ & _ & Hcase).
    unfold process_source, try_except, resolve, bind. rewrite D.
    split.
    + intros Hshape.
      destruct Hcase as [(_ & H1 & H2 & _)|[(_ & _ & H1 & H2 & _)|[(E1 & E2 & _)|(E & _)]]].
      * rewrite arxiv_no_network in H1, H2 by exact down.
        rewrite (fallback_kept _ _ _ _ _ _ H1 H2 eq_refl). simpl. now rewrite Hm.
      * rewrite arxiv_no_network in H1, H2 by exact down.
        rewrite (fallback_kept _ _ _ _ _ _ H1 H2 eq_refl). simpl. now rewrite Hm.
      * destruct Hshape; congruence.
      * unfold dispatched in E. apply orb_false_iff in E as [E _].
        apply orb_false_iff in E as [E1 E2]. destruct Hshape; congruence.
    + intros E1 E2 E3.
      destruct Hcase as [(F & _)|[(_ & F & _)|[(_ & _ & _ & H1 & H2 & _)|(E & _)]]];
        try congruence.
      * rewrite title_no_network in H1 by assumption.
        rewrite url_no_network in H2 by exact down.
        rewrite (fallback_kept _ _ _ _ _ _ H1 H2 eq_refl). simpl. now rewrite Hm.
      * unfold dispatched in E. apply orb_false_iff in E as [_ E]. congruence.
Qed.

(** With every request raising: the sample link keeps the sentinel of the
    scrape, the sample DOI, processed first, raises and gets the failure
    record. *)
Lemma failed_stage_records_witness :
  (forall url headers, requests_get offline url headers = None) /\
  startswith "arXiv:" sample_link = false /\ contains "arxiv.org" sample_link = false /\
  is_web sample_link = true /\
  metadata (snd (process_source offline EmptyString sample_link init_state)) =
  [(sample_link, record "Unknown Title" "Abstract extraction failed")] /\
  resolve offline EmptyString sample_doi init_state
  = (Raise (UnboundLocalError "abstract"), init_state) /\
  exists st',
    process_source offline EmptyString sample_doi init_state = (Ok tt, st') /\
    metadata st' = [(sample_doi, failed_record)].
Proof.
  split; [reflexivity|]. do 3 (split; [reflexivity|]).
  split.
  - destruct (failed_stage_records offline EmptyString sample_link init_state)
      as (_ & _ & H).
    destruct (H (fun _ _ => eq_refl)) as (_ & Hweb).
    exact (Hweb eq_refl eq_refl eq_refl).
  - split; [reflexivity|].
    destruct (failed_stage_records offline EmptyString sample_doi init_state)
      as ((st' & P & H) & _).
    exists st'. split; [exact P|].
    exact (H (UnboundLocalError "abstract") init_state eq_refl).
Defined.

(** C2, as the claim has it, fails: with every request raising and an
    empty document, each stage fails for the sample link (the scrape and
    the API lookup raise, the heuristic finds nothing), yet the abstract
    recorded is the sentinel of the scrape, not 'Failed to get Abstract'. *)
Lemma all_stages_fail_counterexample :
  extract_abstract_from_url offline sample_link = "Abstract extraction failed" /\
  extract_abstract_alternative offline (extract_title_from_url offline sample_link)
  = "Abstract extraction failed" /\
  extract_abstract_from_text EmptyString = "No abstract found in text" /\
  Dict.get sample_link (metadata_after offline EmptyString [sample_link] [] [])
  = Some (record "Unknown Title" "Abstract extraction failed") /\
  abstract_of (record "Unknown Title" "Abstract extraction failed")
  <> "Failed to get Abstract".
Proof. vm_compute. repeat split. discriminate. Qed.

(** ** References that no branch handles *)

Lemma process_source_dispatched w text source st :
  dispatched source = true ->
  exists st' t a,
    process_source w text source st = (Ok tt, st') /\
    metadata st' = Dict.set source (record t a) (metadata st) /\
    v_title st' = Some t /\ v_abstract st' = Some a /\ truthy a = true.
Proof.
  intros Hd.
  destruct (dispatch_binds w source st Hd) as (st1 & t0 & a0 & cs & D & Hm & Ht & Ha & _).
  unfold process_source, try_except, resolve, bind. rewrite D.
  destruct (truthy a0) eqn:Hy.
  - rewrite (fallback_kept _ _ _ _ _ _ Ht Ha Hy).
    exists (with_metadata (Dict.set source (record t0 a0) (metadata st1)) st1), t0, a0.
    simpl. rewrite Hm. repeat split; assumption.
  - destruct a0; [|discriminate].
    destruct (fallback_empty w text source st1 Ha) as (st2 & F & Fm & _ & _ & _ & Ft & Fa).
    rewrite F. do 3 eexists. split; [reflexivity|]. rewrite Fm, Hm.
    split; [reflexivity|]. split; [exact Ft|]. split; [exact Fa|].
    apply alternative_truthy.
Qed.

Lemma process_source_stale w text source st t a :
  dispatched source = false ->
  v_title st = Some t -> v_abstract st = Some a -> truthy a = true ->
  process_source w text source st =
  (Ok tt, with_metadata (Dict.set source (record t a) (metadata st)) st).
Proof.
  intros Hd Ht Ha Hy.
  destruct (dispatch_spec w source st) as (st1 & D & _ & _ & _ & Hcase).
  assert (st1 = st) as ->.
  { unfold dispatched in Hd.
    apply orb_false_iff in Hd as [Hd E3]. apply orb_false_iff in Hd as [E1 E2].
    destruct Hcase as [(F & _)|[(_ & F & _)|[(_ & _ & F & _)|(_ & E)]]];
      congruence. }
  unfold process_source, try_except, resolve, bind. rewrite D.
  now rewrite (fallback_kept _ _ _ _ _ _ Ht Ha Hy).
Qed.

Lemma process_source_unbound w text source st :
  dispatched source = false -> v_abstract st = None ->
  process_source w text source st =
  (Ok tt, with_metadata (Dict.set source failed_record (metadata st)) st).
Proof.
  intros Hd Ha.
  destruct (dispatch_spec w source st) as (st1 & D & _ & _ & _ & Hcase).
  assert (st1 = st) as ->.
  { unfold dispatched in Hd.
    apply orb_false_iff in Hd as [Hd E3]. apply orb_false_iff in Hd as [E1 E2].
    destruct Hcase as [(F & _)|[(_ & F & _)|[(_ & _ & F & _)|(_ & E)]]];
      congruence. }
  unfold process_source, try_except, resolve, bind. rewrite D.
  now rewrite (fallback_unbound _ _ _ _ Ha).
Qed.

(** C3 fails on the code. The DOI [10.1000/xyz123] matches none of the
    three branches of the loop, so the loop reads [title] and [abstract] as
    the previous iteration left them. Processed alone, the variables are
    unbound, the read raises and the failure record is stored. Processed
    after the sample link, in any world and for any document, it is stored
    with a copy of the record of the link; with every request raising that
    copy has the abstract 'Abstract extraction failed'. *)
Theorem bare_reference_takes_stale_record (w : World) (text : string) :
  dispatched sample_doi = false /\
  Dict.get sample_doi (metadata_after w text [] [sample_doi] []) = Some failed_record /\
  (exists t a,
     Dict.get sample_link (metadata_after w text [sample_link] [sample_doi] [])
     = Some (record t a) /\
     Dict.get sample_doi (metadata_after w text [sample_link] [sample_doi] [])
     = Some (record t a)) /\
  Dict.get sample_doi (metadata_after offline text [sample_link] [sample_doi] [])
  = Some (record "Unknown Title" "Abstract extraction failed").
Proof.
  split; [reflexivity|]. split; [reflexivity|]. split; [|reflexivity].
  unfold metadata_after, process_links_and_dois, bind, modify. simpl app.
  cbn [for_each]. unfold bind.
  destruct (process_source_dispatched w text sample_link (fresh_locals init_state) eq_refl)
    as (st' & t & a & P & Pm & Pt & Pa & Py).
  rewrite P.
  rewrite (process_source_stale w text sample_doi st' t a eq_refl Pt Pa Py).
  exists t, a. simpl. rewrite Pm. split; reflexivity.
Qed.

(** C4. After [process_links_and_dois], every reference of the three
    collections has an entry in the metadata mapping, and every entry binds
    both 'title' and 'abstract' to a string, whatever the stages did. The
    mapping is empty on a new extractor; the statement allows any start
    whose entries bind both keys. *)
Theorem every_reference_has_a_record (w : World) (text : string)
    (links dois arxiv_ids : list string) (st : State) :
  (forall k i, In (k, i) (metadata st) -> has_both_keys i) ->
  let m := metadata (snd (process_links_and_dois w text links dois arxiv_ids st)) in
  (forall r, In r (links ++ dois ++ arxiv_ids)%list ->
     exists i, Dict.get r m = Some i /\ has_both_keys i) /\
  (forall k i, In (k, i) m -> has_both_keys i).
Proof.
  intros Hwf m.
  destruct (process_links_and_dois_spec w text links dois arxiv_ids st)
    as (st' & P & Hin & Hkeys & _).
  subst m. rewrite P. simpl. specialize (Hkeys Hwf). split; [|exact Hkeys].
  intros r Hr. specialize (Hin r Hr).
  destruct (Dict.get r (metadata st')) as [i|] eqn:E; [|congruence].
  exists i. split; [reflexivity|]. apply (Hkeys r). now apply get_in.
Qed.

(** The three sample references on a new extractor. *)
Lemma every_reference_has_a_record_witness :
  (forall k i, In (k, i) (metadata init_state) -> has_both_keys i) /\
  In sample_doi ([sample_link] ++ [sample_doi] ++ [sample_arxiv])%list /\
  exists i,
    Dict.get sample_doi
      (metadata (snd (process_links_and_dois offline sample_text
                        [sample_link] [sample_doi] [sample_arxiv] init_state)))
    = Some i /\ has_both_keys i.
Proof.
  assert (H : forall k i, In (k, i) (metadata init_state) -> has_both_keys i)
    by (intros k i []).
  assert (Hin : In sample_doi ([sample_link] ++ [sample_doi] ++ [sample_arxiv])%list)
    by (right; left; reflexivity).
  split; [exact H|]. split; [exact Hin|].
  exact (proj1 (every_reference_has_a_record offline sample_text
                  [sample_link] [sample_doi] [sample_arxiv] init_state H)
               sample_doi Hin).
Defined.

(** C5. On the sample sentence, [extract_links_and_dois] returns the one
    link, the one DOI and the one arXiv identifier. *)
Theorem extract_sample_text :
  extract_links_and_dois sample_text =
  (["https://example.com/paper.pdf"], ["10.1000/xyz123"], ["arXiv:2301.01234"]).
Proof. vm_compute. reflexivity. Qed.

(** ** Character classes of the reference patterns *)

Ltac by_cases_on_char c :=
  destruct c as [[] [] [] [] [] [] [] []]; vm_compute;
  intro; first [reflexivity | discriminate].

Lemma digit_not_space c : is_digit c = true -> not_space c = true.
Proof. by_cases_on_char c. Qed.

Lemma doi_char_not_space c : doi_char c = true -> not_space c = true.
Proof. by_cases_on_char c. Qed.

Lemma literal_not_space (a c : ascii) :
  not_space a = true -> Ascii.eqb a c = true -> not_space c = true.
Proof. intros H E. apply Ascii.eqb_eq in E. now subst. Qed.

Ltac spaceless_atom :=
  cbn [cls];
  first [ exact digit_not_space
        | exact doi_char_not_space
        | (intros c H; exact H)
        | (intros c; apply literal_not_space; reflexivity) ].

Ltac spaceless_pattern :=
  cbv [spaceless link_http link_www link_doi doi_pattern arxiv_pattern
       lit chr opt plus rep app map list_ascii_of_string];
  repeat (apply Forall_cons; [spaceless_atom|]); apply Forall_nil.

Lemma link_patterns_spaceless : Forall spaceless link_patterns.
Proof.
  unfold link_patterns.
  repeat (apply Forall_cons; [spaceless_pattern|]). apply Forall_nil.
Qed.

Lemma doi_pattern_spaceless : spaceless doi_pattern.
Proof. spaceless_pattern. Qed.

Lemma arxiv_pattern_spaceless : spaceless arxiv_pattern.
Proof. spaceless_pattern. Qed.

Lemma spaceless_no_outer_space e :
  all_chars not_space e = true -> no_outer_space e.
Proof.
  intros H. split; intros c E.
  - apply (all_chars_head _ _ _ H) in E. unfold not_space in E.
    now apply negb_true_iff in E.
  - apply (all_chars_last _ _ _ H) in E. unfold not_space in E.
    now apply negb_true_iff in E.
Qed.

Lemma in_link_matches text m :
  In m (flat_map (fun p => findall p text) link_patterns) ->
  all_chars not_space m = true.
Proof.
  intros H. apply in_flat_map in H as (p & Hp & Hm).
  apply findall_sound in Hm.
  apply (Matches_all_chars not_space p m); [|exact Hm].
  pose proof link_patterns_spaceless as F.
  rewrite Forall_forall in F. apply (F p Hp).
Qed.

(** C6. For every text, the three collections have no duplicates, no entry
    starts or ends with white space, no link ends with one of the
    characters [,.()[]], and every DOI matches the DOI pattern as a
    whole. *)
Theorem extract_well_formed (text : string) :
  let '(links, dois, arxiv_ids) := extract_links_and_dois text in
  (NoDup links /\ NoDup dois /\ NoDup arxiv_ids) /\
  (forall e, In e (links ++ dois ++ arxiv_ids)%list -> no_outer_space e) /\
  (forall l c, In l links -> last_char l = Some c -> char_in ",.()[]" c = false) /\
  (forall d, In d dois -> Matches doi_pattern d).
Proof.
  unfold extract_links_and_dois, list_set.
  split; [|split; [|split]].
  - repeat split; apply NoDup_nodup.
  - intros e H. apply spaceless_no_outer_space.
    apply in_app_or in H as [H|H]; [|apply in_app_or in H as [H|H]];
      apply nodup_In in H.
    + apply in_map_iff in H as (m & <- & Hm).
      apply all_chars_strip. apply (in_link_matches _ _ Hm).
    + apply (Matches_all_chars not_space doi_pattern);
        [exact doi_pattern_spaceless | apply (findall_sound _ _ _ H)].
    + apply (Matches_all_chars not_space arxiv_pattern);
        [exact arxiv_pattern_spaceless | apply (findall_sound _ _ _ H)].
  - intros l c H. apply nodup_In in H.
    apply in_map_iff in H as (m & <- & _). apply strip_last.
  - intros d H. apply nodup_In in H. apply (findall_sound _ _ _ H).
Qed.

(** The sample sentence. *)
Lemma extract_well_formed_witness :
  no_outer_space sample_link /\
  (forall c, last_char sample_link = Some c -> char_in ",.()[]" c = false) /\
  Matches doi_pattern sample_doi.
Proof.
  pose proof (extract_well_formed sample_text) as H.
  change (extract_links_and_dois sample_text)
    with ([sample_link], [sample_doi], [sample_arxiv]) in H.
  destruct H as (_ & Hs & Hl & Hd).
  split; [|split].
  - apply Hs. left. reflexivity.
  - intros c. apply Hl. left. reflexivity.
  - apply Hd. left. reflexivity.
Defined.

(** C7, as the code has it. Let a page answer 200 with a description
    <meta> element as its only abstract candidate. The scrape returns the
    content of the element, trimmed, only when the content is longer than
    50 characters; otherwise it returns 'Abstract not found'. The content
    'A study of X.' has 13 characters, so for it the answer is 'Abstract
    not found'. *)
Theorem meta_description_scrape (w : World) (url : string) (response : Response)
    (m : Tag) (content : string) :
  requests_get w url true = Some response ->
  status_code response = 200 ->
  abstract_candidates (html_parser w (text response)) = [Some m; None; None] ->
  Dict.get "content" (tag_attrs m) = Some content ->
  (String.length content <= 50 ->
   extract_abstract_from_url w url = "Abstract not found") /\
  (50 < String.length content ->
   extract_abstract_from_url w url = strip content).
Proof.
  intros Hget Hstatus Hcand Hcontent.
  unfold extract_abstract_from_url. rewrite Hget, Hstatus, Hcand. simpl.
  unfold tag_get, Dict.get_default. rewrite Hcontent.
  split; intros Hlen.
  - apply Nat.ltb_ge in Hlen. rewrite Hlen, andb_false_r. reflexivity.
  - assert (truthy content = true) as -> by (destruct content; [simpl in Hlen; lia | reflexivity]).
    apply Nat.ltb_lt in Hlen. rewrite Hlen. reflexivity.
Qed.

(** The page of [meta_world], whose description has 13 characters. *)
Lemma meta_description_scrape_witness :
  requests_get meta_world sample_link true
  = Some {| status_code := 200; text := meta_page |} /\
  abstract_candidates (html_parser meta_world meta_page) = [Some meta_tag; None; None] /\
  Dict.get "content" (tag_attrs meta_tag) = Some "A study of X." /\
  String.length "A study of X." <= 50 /\
  extract_abstract_from_url meta_world sample_link = "Abstract not found".
Proof.
  assert (L : String.length "A study of X." <= 50) by (simpl; lia).
  repeat (split; [reflexivity|]). split; [exact L|].
  exact (proj1 (meta_description_scrape meta_world sample_link
                  {| status_code := 200; text := meta_page |} meta_tag "A study of X."
                  eq_refl eq_refl eq_refl eq_refl) L).
Defined.

(** C7, as the claim has it, fails: the page answers 200, its only
    candidate is the description <meta> element with content 'A study of
    X.', and the scrape does not return that content. *)
Lemma short_meta_description_counterexample :
  requests_get meta_world sample_link true
  = Some {| status_code := 200; text := meta_page |} /\
  abstract_candidates (html_parser meta_world meta_page) = [Some meta_tag; None; None] /\
  tag_get "content" (tag_text meta_tag) meta_tag = "A study of X." /\
  extract_abstract_from_url meta_world sample_link <> "A study of X.".
Proof. vm_compute. repeat split. discriminate. Qed.

(** ** Reports *)

Lemma html_rows_columns w m : forall k,
  map row_name (html_rows w k m) = map (fun e => extract_title_from_url w (fst e)) m /\
  map row_abstract (html_rows w k m)
  = map (fun e => str_take 500 (abstract_of (snd e)) ++ "...") m.
Proof.
  induction m as [|[source i] m IH]; intros k; simpl.
  - split; reflexivity.
  - destruct (IH (S k)) as [H1 H2]. now rewrite H1, H2.
Qed.

(** The document each writer saves when the mapping is not empty and
    nothing raises. *)
Lemma reports_written w st pdf_path html_path :
  metadata st <> [] -> add_font w = None ->
  write_file w pdf_path = None -> write_file w html_path = None ->
  files (snd (create_output_pdf w pdf_path st))
  = (files st ++ [(pdf_path, PdfDoc (pdf_document (metadata st)))])%list /\
  files (snd (create_output_html w html_path st))
  = (files st ++ [(html_path, HtmlDoc (html_document w (metadata st)))])%list.
Proof.
  intros Hne Hfont Hpdf Hhtml.
  unfold create_output_pdf, create_output_html, try_except, save, bind, lift_exn.
  destruct (metadata st) as [|e m] eqn:E; [congruence|].
  simpl. rewrite Hfont, Hpdf, Hhtml. split; reflexivity.
Qed.

(** The text of the HTML document, written out: the head, then for each
    entry of the mapping, in its order and numbered from 1, one table row
    holding the number, the title resolved for the reference, the first
    500 characters of the stored abstract followed by '...', and the link;
    then the tail. *)
Lemma html_rows_text w m : forall k,
  map render_row (html_rows w k m)
  = map (fun p : nat * (string * info) =>
            "
                    <tr>
                        <td>" ++ str_of_nat (fst p) ++ "</td>
                        <td>" ++ extract_title_from_url w (fst (snd p)) ++ "</td>
                        <td>" ++ str_take 500 (abstract_of (snd (snd p))) ++ "...</td>
                        <td><a href='" ++ fst (snd p) ++ "' target='_blank'>"
            ++ fst (snd p) ++ "</a></td>
                    </tr>
                ")
      (combine (seq k (List.length m)) m).
Proof.
  induction m as [|[source i] m IH]; intros k; [reflexivity|].
  cbn [html_rows map List.length seq combine]. rewrite IH. f_equal.
  unfold render_row, html_row_of. cbn [row_index row_name row_abstract row_link fst snd].
  rewrite !append_assoc. reflexivity.
Qed.

Lemma html_document_text w m :
  html_document w m
  = html_head
    ++ String.concat EmptyString
         (map (fun p : nat * (string * info) =>
            "
                    <tr>
                        <td>" ++ str_of_nat (fst p) ++ "</td>
                        <td>" ++ extract_title_from_url w (fst (snd p)) ++ "</td>
                        <td>" ++ str_take 500 (abstract_of (snd (snd p))) ++ "...</td>
                        <td><a href='" ++ fst (snd p) ++ "' target='_blank'>"
            ++ fst (snd p) ++ "</a></td>
                    </tr>
                ")
            (combine (seq 1 (List.length m)) m))
    ++ html_tail.
Proof. unfold html_document. now rewrite html_rows_text. Qed.

(** C8, as the code has it. The HTML document that is written, when the
    mapping is not empty and the write succeeds, is the head, one table
    row per entry of the metadata mapping, in the order of the mapping and
    numbered from 1, and the tail. In each row the Abstract column is the
    first 500 characters of the stored abstract, followed by '...'. The
    Title column is not read from the stored record: it is
    [extract_title_from_url], called on the reference again when the row
    is rendered. *)
Theorem html_report_rows (w : World) (st : State) (path : string) :
  html_document w (metadata st)
  = html_head
    ++ String.concat EmptyString
         (map (fun p : nat * (string * info) =>
            "
                    <tr>
                        <td>" ++ str_of_nat (fst p) ++ "</td>
                        <td>" ++ extract_title_from_url w (fst (snd p)) ++ "</td>
                        <td>" ++ str_take 500 (abstract_of (snd (snd p))) ++ "...</td>
                        <td><a href='" ++ fst (snd p) ++ "' target='_blank'>"
            ++ fst (snd p) ++ "</a></td>
                    </tr>
                ")
            (combine (seq 1 (List.length (metadata st))) (metadata st)))
    ++ html_tail /\
  map row_name (html_rows w 1 (metadata st))
  = map (fun e => extract_title_from_url w (fst e)) (metadata st) /\
  map row_abstract (html_rows w 1 (metadata st))
  = map (fun e => str_take 500 (abstract_of (snd e)) ++ "...") (metadata st) /\
  (forall e, In e (metadata st) ->
     String.length (str_take 500 (abstract_of (snd e))) <= 500 /\
     forall a, Dict.get "abstract" (snd e) = Some a -> abstract_of (snd e) = a) /\
  (metadata st <> [] -> write_file w path = None ->
   files (snd (create_output_html w path st))
   = (files st ++ [(path, HtmlDoc (html_document w (metadata st)))])%list).
Proof.
  destruct (html_rows_columns w (metadata st) 1) as [H1 H2].
  split; [apply html_document_text|].
  split; [exact H1|]. split; [exact H2|]. split.
  - intros e _. split; [apply str_take_bound|].
    intros a Ha. unfold abstract_of, Dict.get_default. now rewrite Ha.
  - intros Hne Hw. unfold create_output_html, try_except, save, bind, lift_exn.
    destruct (metadata st) as [|e m] eqn:E; [congruence|].
    simpl. rewrite Hw. reflexivity.
Qed.

(** The row of the sample arXiv identifier when every request raises. *)
Lemma html_report_rows_witness :
  metadata (snd (process_links_and_dois offline EmptyString [] [] [sample_arxiv] init_state))
  <> [] /\
  write_file offline "out.html" = None /\
  map row_name
    (html_rows offline 1
       (metadata (snd (process_links_and_dois offline EmptyString [] [] [sample_arxiv]
                         init_state))))
  = ["Unknown Title"].
Proof.
  split; [discriminate|]. split; [reflexivity|].
  rewrite (proj1 (proj2 (html_report_rows offline
                    (snd (process_links_and_dois offline EmptyString [] [] [sample_arxiv]
                            init_state)) "out.html"))).
  reflexivity.
Defined.

(** C8, as the claim has it, fails: the record stored for the arXiv
    identifier has the title 'Title retrieval error', the row rendered for
    it has the title 'Unknown Title'. *)
Lemma html_title_counterexample :
  Dict.get sample_arxiv (metadata_after offline EmptyString [] [] [sample_arxiv])
  = Some (record "Title retrieval error" "Abstract retrieval error") /\
  map row_name
    (html_rows offline 1 (metadata_after offline EmptyString [] [] [sample_arxiv]))
  = ["Unknown Title"] /\
  "Unknown Title" <> "Title retrieval error".
Proof. vm_compute. repeat split. discriminate. Qed.

(** C9. If reading the input PDF raises, the document text is the empty
    string, the extraction over it returns three empty collections, the
    metadata mapping stays empty, no file is written, and the run ends
    normally after telling the user that there is nothing to report. *)
Theorem unreadable_pdf_ends_gracefully (w : World) (input_pdf_path output_pdf_path : string) :
  pdf_pages w input_pdf_path = None ->
  extract_text_from_pdf w input_pdf_path = EmptyString /\
  extract_links_and_dois EmptyString = ([], [], []) /\
  exists st',
    workflow w input_pdf_path output_pdf_path init_state = (Ok tt, st') /\
    metadata st' = [] /\
    files st' = [] /\
    stdout st' =
    [ "No links or abstracts found to generate PDF.";
      "No metadata found to generate HTML.";
      "Extraction complete. Outputs saved to PDF: " ++ output_pdf_path
      ++ " and HTML: " ++ replace ".pdf" ".html" output_pdf_path ].
Proof.
  intros H.
  assert (T : extract_text_from_pdf w input_pdf_path = EmptyString)
    by (unfold extract_text_from_pdf; now rewrite H).
  split; [exact T|]. split; [reflexivity|].
  unfold workflow. rewrite T.
  change (extract_links_and_dois EmptyString) with (@nil string, @nil string, @nil string).
  eexists. split; [reflexivity|]. repeat split.
Qed.

(** A run on a PDF that cannot be read. *)
Lemma unreadable_pdf_ends_gracefully_witness :
  pdf_pages offline "paper.pdf" = None /\
  exists st',
    workflow offline "paper.pdf" "extracted_links_and_abstracts.pdf" init_state
    = (Ok tt, st') /\
    metadata st' = [] /\ files st' = [] /\
    stdout st' =
    [ "No links or abstracts found to generate PDF.";
      "No metadata found to generate HTML.";
      "Extraction complete. Outputs saved to PDF: extracted_links_and_abstracts.pdf and HTML: extracted_links_and_abstracts.html" ].
Proof.
  split; [reflexivity|].
  exact (proj2 (proj2 (unreadable_pdf_ends_gracefully offline "paper.pdf"
                         "extracted_links_and_abstracts.pdf" eq_refl))).
Defined.




(** * Further properties of the code *)

(** ** The document text and the loop *)

Lemma state_ext (s1 s2 : State) :
  metadata s1 = metadata s2 -> v_title s1 = v_title s2 ->
  v_abstract s1 = v_abstract s2 -> stdout s1 = stdout s2 ->
  files s1 = files s2 -> calls s1 = calls s2 -> s1 = s2.
Proof. destruct s1, s2; simpl; intros; subst; reflexivity. Qed.

Lemma fallback_text_free w text1 text2 source st :
  fallback w text1 source st = fallback w text2 source st.
Proof.
  destruct (v_abstract st) as [a|] eqn:Ha.
  - destruct (truthy a) eqn:Hy.
    + destruct (v_title st) as [t|] eqn:Ht.
      * now rewrite !(fallback_kept _ _ _ _ _ _ Ht Ha Hy).
      * now rewrite !(fallback_no_title _ _ _ _ _ Ht Ha Hy).
    + destruct a; [|discriminate].
      destruct (fallback_empty w text1 source st Ha)
        as (s1 & F1 & M1 & C1 & O1 & L1 & T1 & A1).
      destruct (fallback_empty w text2 source st Ha)
        as (s2 & F2 & M2 & C2 & O2 & L2 & T2 & A2).
      rewrite F1, F2. f_equal. apply state_ext; congruence.
  - now rewrite !(fallback_unbound _ _ _ _ Ha).
Qed.

Lemma process_source_text_free w text1 text2 source st :
  process_source w text1 source st = process_source w text2 source st.
Proof.
  unfold process_source, try_except, resolve, bind.
  destruct (dispatch w source st) as [[[]|e] st1]; [|reflexivity].
  now rewrite (fallback_text_free w text1 text2).
Qed.

Lemma for_each_text_free w text1 text2 refs : forall st,
  for_each refs (process_source w text1) st = for_each refs (process_source w text2) st.
Proof.
  induction refs as [|r refs IH]; intros st; simpl; [reflexivity|].
  unfold bind. rewrite (process_source_text_free w text1 text2).
  destruct (process_source w text2 r st) as [[[]|e] st1]; [apply IH | reflexivity].
Qed.

(** The calls of one iteration: those of the dispatch, then possibly the
    title and the API lookup, never the in-document heuristic. *)
Lemma process_source_calls w text source st :
  exists cs,
    calls (snd (process_source w text source st)) = (calls st ++ cs)%list /\
    ~ In Call_text cs.
Proof.
  destruct (dispatch_spec w source st) as (st1 & D & _ & _ & _ & Hcase).
  assert (exists cs1, calls st1 = (calls st ++ cs1)%list /\ ~ In Call_text cs1)
    as (cs1 & Hc & Hn).
  { destruct Hcase as [(_ & _ & _ & H)|[(_ & _ & _ & _ & H)|[(_ & _ & _ & _ & _ & H)|(_ & ->)]]].
    - eexists; split; [exact H|]. intros [E|[]]; discriminate.
    - eexists; split; [exact H|]. intros [E|[]]; discriminate.
    - eexists; split; [exact H|]. intros [E|[E|[]]]; discriminate.
    - exists []. split; [now rewrite app_nil_r | intros []]. }
  unfold process_source, try_except, resolve, bind. rewrite D.
  destruct (v_abstract st1) as [a|] eqn:Ha.
  - destruct (truthy a) eqn:Hy.
    + destruct (v_title st1) as [t|] eqn:Ht.
      * rewrite (fallback_kept _ _ _ _ _ _ Ht Ha Hy). exists cs1. now split.
      * rewrite (fallback_no_title _ _ _ _ _ Ht Ha Hy). exists cs1. now split.
    + destruct a; [|discriminate].
      destruct (fallback_empty w text source st1 Ha) as (s2 & F & _ & C & _).
      rewrite F. simpl. rewrite C, Hc, <- app_assoc.
      eexists. split; [reflexivity|].
      intros Hin. apply in_app_or in Hin as [Hin|[Hin|[Hin|[]]]];
        [now apply Hn | discriminate | discriminate].
  - rewrite (fallback_unbound _ _ _ _ Ha). exists cs1. now split.
Qed.

Lemma for_each_calls w text refs : forall st,
  exists cs,
    calls (snd (for_each refs (process_source w text) st)) = (calls st ++ cs)%list /\
    ~ In Call_text cs.
Proof.
  induction refs as [|r refs IH]; intros st.
  - exists []. split; [simpl; now rewrite app_nil_r | intros []].
  - destruct (process_source_spec w text r st) as (i & st1 & P & _).
    destruct (process_source_calls w text r st) as (cs1 & C1 & N1).
    rewrite P in C1. simpl in C1.
    destruct (IH st1) as (cs2 & C2 & N2).
    exists (cs1 ++ cs2)%list. simpl. unfold bind. rewrite P.
    split; [now rewrite C2, C1, app_assoc|].
    intros Hin. apply in_app_or in Hin as [Hin|Hin]; [now apply N1 | now apply N2].
Qed.

(** X1. [process_links_and_dois] never calls [extract_abstract_from_text]:
    the API stage never returns an empty abstract, so the second
    [if not abstract] never fires. The document text therefore has no
    effect: two runs that differ in the text only end in the same state. *)
Theorem document_text_is_never_used (w : World) (text1 text2 : string)
    (links dois arxiv_ids : list string) (st : State) :
  process_links_and_dois w text1 links dois arxiv_ids st
  = process_links_and_dois w text2 links dois arxiv_ids st /\
  ~ In Call_text
      (skipn (List.length (calls st))
         (calls (snd (process_links_and_dois w text1 links dois arxiv_ids st)))).
Proof.
  unfold process_links_and_dois, bind, modify. split.
  - apply for_each_text_free.
  - destruct (for_each_calls w text1 (links ++ dois ++ arxiv_ids)%list (fresh_locals st))
      as (cs & C & N).
    rewrite C. simpl. now rewrite skipn_app, skipn_all, Nat.sub_diag.
Qed.

(** X2. [extract_abstract_alternative] never returns the empty string, and
    when the Crossref request raises it returns 'Abstract extraction
    failed' without any use of Semantic Scholar. *)
Theorem alternative_never_empty (w : World) (title : string) :
  extract_abstract_alternative w title <> EmptyString /\
  (requests_get w ("https://api.crossref.org/works?query=" ++ quote w title ++ "&rows=1")
     false = None ->
   extract_abstract_alternative w title = "Abstract extraction failed").
Proof.
  split.
  - apply truthy_true_iff, alternative_truthy.
  - intros H. unfold extract_abstract_alternative, api_attempt. now rewrite H.
Qed.

Lemma alternative_never_empty_witness :
  requests_get offline ("https://api.crossref.org/works?query=" ++ quote offline "On Proofs"
                        ++ "&rows=1") false = None /\
  extract_abstract_alternative offline "On Proofs" = "Abstract extraction failed".
Proof.
  split; [reflexivity|].
  exact (proj2 (alternative_never_empty offline "On Proofs") eq_refl).
Defined.

(** ** What the loop carries from one reference to the next *)

Lemma for_each_app {A : Type} (l1 l2 : list A) (body : A -> M unit) st :
  for_each (l1 ++ l2)%list body st =
  match for_each l1 body st with
  | (Ok _, st1) => for_each l2 body st1
  | (Raise e, st1) => (Raise e, st1)
  end.
Proof.
  revert st; induction l1 as [|x l1 IH]; intros st; simpl; [reflexivity|].
  unfold bind. destruct (body x st) as [[[]|e] st1]; [apply IH | reflexivity].
Qed.

(** The variables a handled reference leaves do not depend on the state
    it starts from. *)
Lemma dispatch_values w l :
  dispatched l = true ->
  exists t0 a0, forall st, exists st1,
    dispatch w l st = (Ok tt, st1) /\ metadata st1 = metadata st /\
    v_title st1 = Some t0 /\ v_abstract st1 = Some a0.
Proof.
  intros Hd. unfold dispatched in Hd.
  destruct (startswith "arXiv:" l) eqn:E1;
    [|destruct (contains "arxiv.org" l) eqn:E2; [|destruct (is_web l) eqn:E3; [|discriminate]]].
  - do 2 eexists. intros st.
    destruct (dispatch_spec w l st) as (st1 & D & Hm & _ & _ & Hcase).
    exists st1. split; [exact D|]. split; [exact Hm|].
    destruct Hcase as [(_ & H1 & H2 & _)|[(F & _)|[(F & _)|(F & _)]]];
      [split; [exact H1 | exact H2] | congruence | congruence |].
    unfold dispatched in F. rewrite E1 in F. discriminate.
  - do 2 eexists. intros st.
    destruct (dispatch_spec w l st) as (st1 & D & Hm & _ & _ & Hcase).
    exists st1. split; [exact D|]. split; [exact Hm|].
    destruct Hcase as [(F & _)|[(_ & _ & H1 & H2 & _)|[(_ & F & _)|(F & _)]]];
      [congruence | split; [exact H1 | exact H2] | congruence |].
    unfold dispatched in F. rewrite E1, E2 in F. discriminate.
  - do 2 eexists. intros st.
    destruct (dispatch_spec w l st) as (st1 & D & Hm & _ & _ & Hcase).
    exists st1. split; [exact D|]. split; [exact Hm|].
    destruct Hcase as [(F & _)|[(_ & F & _)|[(_ & _ & _ & H1 & H2 & _)|(F & _)]]];
      [congruence | congruence | split; [exact H1 | exact H2] |].
    unfold dispatched in F. rewrite E1, E2, E3 in F. discriminate.
Qed.

(** The record of a handled reference depends on the world and on the
    reference only. *)
Lemma dispatched_record w l :
  dispatched l = true ->
  exists t a, truthy a = true /\
    forall text st, exists st',
      process_source w text l st = (Ok tt, st') /\
      metadata st' = Dict.set l (record t a) (metadata st) /\
      v_title st' = Some t /\ v_abstract st' = Some a.
Proof.
  intros Hd. destruct (dispatch_values w l Hd) as (t0 & a0 & Hdis).
  destruct (truthy a0) eqn:Hy.
  - exists t0, a0. split; [exact Hy|]. intros text st.
    destruct (Hdis st) as (st1 & D & Hm & Ht & Ha).
    unfold process_source, try_except, resolve, bind. rewrite D.
    rewrite (fallback_kept _ _ _ _ _ _ Ht Ha Hy).
    eexists. split; [reflexivity|]. simpl. rewrite Hm. repeat split; assumption.
  - destruct a0; [|discriminate].
    exists (extract_title_from_url w l),
           (extract_abstract_alternative w (extract_title_from_url w l)).
    split; [apply alternative_truthy|]. intros text st.
    destruct (Hdis st) as (st1 & D & Hm & Ht & Ha).
    unfold process_source, try_except, resolve, bind. rewrite D.
    destruct (fallback_empty w text l st1 Ha) as (st2 & F & Fm & _ & _ & _ & Ft & Fa).
    rewrite F. exists st2. split; [reflexivity|]. rewrite Fm, Hm.
    repeat split; assumption.
Qed.

Lemma process_source_other_key w text source st k :
  k <> source ->
  Dict.get k (metadata (snd (process_source w text source st))) = Dict.get k (metadata st).
Proof.
  intros N. destruct (process_source_spec w text source st) as (i & st' & P & Pm & _).
  rewrite P. simpl. rewrite Pm. now apply get_set_other.
Qed.

(** A key whose processing always stores [v]: once it holds [v], it holds
    [v] after any further references. *)
Lemma for_each_stable_key w text k v refs : forall st,
  Dict.get k (metadata st) = Some v ->
  (In k refs -> forall st0, Dict.get k (metadata (snd (process_source w text k st0))) = Some v) ->
  Dict.get k (metadata (snd (for_each refs (process_source w text) st))) = Some v.
Proof.
  induction refs as [|r refs IH]; intros st Hk Hre; [exact Hk|].
  simpl. unfold bind.
  destruct (process_source_spec w text r st) as (i & st1 & P & _).
  pose proof P as P'. rewrite P. apply IH.
  - destruct (string_dec k r) as [->|N].
    + specialize (Hre (or_introl eq_refl) st). now rewrite P' in Hre.
    + pose proof (process_source_other_key w text r st k N) as H.
      rewrite P' in H. simpl in H. now rewrite H.
  - intros Hin. apply Hre. now right.
Qed.

(** A run of references that no branch handles, met with both variables
    bound: each gets the record made of the two variables, which stay as
    they are. *)
Lemma for_each_stale w text t a bare : forall st,
  (forall x, In x bare -> dispatched x = false) ->
  v_title st = Some t -> v_abstract st = Some a -> truthy a = true ->
  exists st',
    for_each bare (process_source w text) st = (Ok tt, st') /\
    v_title st' = Some t /\ v_abstract st' = Some a /\
    (forall d, In d bare -> Dict.get d (metadata st') = Some (record t a)) /\
    (forall k, ~ In k bare -> Dict.get k (metadata st') = Dict.get k (metadata st)).
Proof.
  induction bare as [|x bare IH]; intros st Hb Ht Ha Hy.
  - exists st. repeat split; auto. intros d [].
  - assert (Hx : dispatched x = false) by (apply Hb; now left).
    pose proof (process_source_stale w text x st t a Hx Ht Ha Hy) as P.
    destruct (IH (with_metadata (Dict.set x (record t a) (metadata st)) st))
      as (st' & F & Ft & Fa & Fin & Fout); auto.
    { intros y Hyin. apply Hb. now right. }
    exists st'. simpl. unfold bind. rewrite P.
    split; [exact F|]. split; [exact Ft|]. split; [exact Fa|]. split.
    + intros d [<-|Hd]; [|now apply Fin].
      destruct (in_dec string_dec x bare) as [Hin|Hnin]; [now apply Fin|].
      rewrite (Fout x Hnin). simpl. apply get_set_same.
    + intros k Hk. rewrite Fout by (intros Hin; apply Hk; now right).
      simpl. apply get_set_other. intros ->. apply Hk. now left.
Qed.

(** The same run met with [abstract] unbound: each gets the failure
    record. *)
Lemma for_each_unbound w text bare : forall st,
  (forall x, In x bare -> dispatched x = false) ->
  v_abstract st = None ->
  exists st',
    for_each bare (process_source w text) st = (Ok tt, st') /\
    (forall d, In d bare -> Dict.get d (metadata st') = Some failed_record).
Proof.
  induction bare as [|x bare IH]; intros st Hb Ha.
  - exists st. split; [reflexivity | intros d []].
  - assert (Hx : dispatched x = false) by (apply Hb; now left).
    pose proof (process_source_unbound w text x st Hx Ha) as P.
    destruct (IH (with_metadata (Dict.set x failed_record (metadata st)) st))
      as (st' & F & Fin); auto.
    { intros y Hyin. apply Hb. now right. }
    exists st'. simpl. unfold bind. rewrite P. split; [exact F|].
    intros d [<-|Hd]; [|now apply Fin].
    destruct (in_dec string_dec x bare) as [Hin|Hnin]; [now apply Fin|].
    pose proof (for_each_stable_key w text x failed_record bare
                  (with_metadata (Dict.set x failed_record (metadata st)) st)) as S.
    rewrite F in S. apply S; [simpl; apply get_set_same | intros Hin; contradiction].
Qed.

Lemma handled_differs_from_bare x d :
  dispatched x = true -> dispatched d = false -> d <> x.
Proof. intros Hx Hd ->. congruence. Qed.

(** ** The shape of the extracted references *)

Lemma Matches_chr c p m :
  Matches (chr c :: p) m -> exists r, m = String c r /\ Matches p r.
Proof.
  intros H. inversion H as [|a p' u v Hu Hlo Hhi Hv]; subst. simpl in *.
  specialize (Hhi 1 eq_refl).
  destruct u as [|d [|e u]]; simpl in *; try lia.
  rewrite andb_true_r in Hu. apply Ascii.eqb_eq in Hu. subst d.
  exists v. split; [reflexivity | exact Hv].
Qed.

Lemma Matches_lit s p m :
  Matches (lit s ++ p)%list m -> exists r, m = s ++ r /\ Matches p r.
Proof.
  revert m; induction s as [|c s IH]; intros m H.
  - exists m. split; [reflexivity | exact H].
  - change (lit (String c s) ++ p)%list with (chr c :: (lit s ++ p))%list in H.
    apply Matches_chr in H as (r & -> & Hr).
    destruct (IH _ Hr) as (r' & -> & Hr'). exists r'. split; [reflexivity | exact Hr'].
Qed.

Lemma Matches_opt c p m :
  Matches (opt c :: p) m -> Matches p m \/ exists r, m = String c r /\ Matches p r.
Proof.
  intros H. inversion H as [|a p' u v Hu Hlo Hhi Hv]; subst. simpl in *.
  specialize (Hhi 1 eq_refl).
  destruct u as [|d [|e u]]; simpl in *; try lia.
  - left. exact Hv.
  - rewrite andb_true_r in Hu. apply Ascii.eqb_eq in Hu. subst d.
    right. exists v. split; [reflexivity | exact Hv].
Qed.

Lemma Matches_atom a p m :
  Matches (a :: p) m ->
  exists u r, m = u ++ r /\ all_chars (cls a) u = true /\ lo a <= String.length u /\
              (forall n, hi a = Some n -> String.length u <= n) /\ Matches p r.
Proof.
  intros H. inversion H as [|a' p' u v Hu Hlo Hhi Hv]; subst.
  exists u, v. repeat split; assumption.
Qed.

Lemma Matches_end m : Matches [] m -> m = EmptyString.
Proof. intros H. now inversion H. Qed.

Lemma Matches_plus q m :
  Matches [plus q] m -> m <> EmptyString /\ all_chars q m = true.
Proof.
  intros H. apply Matches_atom in H as (u & r & -> & Hu & Hlo & _ & Hr).
  apply Matches_end in Hr. subst r. rewrite append_empty_r. simpl in *.
  split; [|exact Hu]. destruct u; [simpl in Hlo; lia | discriminate].
Qed.

(** The three kinds of link, before [strip]. *)
Lemma link_http_shape m :
  Matches link_http m ->
  exists r, r <> EmptyString /\ (m = "http://" ++ r \/ m = "https://" ++ r).
Proof.
  intros H. apply (Matches_lit "http") in H as (r1 & -> & H).
  apply Matches_opt in H as [H|(r2 & -> & H)].
  - apply (Matches_lit "://") in H as (r & -> & H).
    apply Matches_plus in H as [Hne _]. exists r. split; [exact Hne | now left].
  - apply (Matches_lit "://") in H as (r & -> & H).
    apply Matches_plus in H as [Hne _]. exists r. split; [exact Hne | now right].
Qed.

Lemma link_www_shape m :
  Matches link_www m -> exists r, r <> EmptyString /\ m = "www." ++ r.
Proof.
  intros H. apply (Matches_lit "www.") in H as (r & -> & H).
  apply Matches_plus in H as [Hne _]. exists r. now split.
Qed.

Lemma link_doi_shape m :
  Matches link_doi m -> exists r, r <> EmptyString /\ m = "doi.org/" ++ r.
Proof.
  intros H. apply (Matches_lit "doi.org/") in H as (r & -> & H).
  apply Matches_plus in H as [Hne _]. exists r. now split.
Qed.

Lemma doi_shape m :
  Matches doi_pattern m ->
  exists digits tail,
    m = "10." ++ digits ++ "/" ++ tail /\
    all_chars is_digit digits = true /\
    4 <= String.length digits <= 9 /\
    tail <> EmptyString /\ all_chars doi_char tail = true.
Proof.
  intros H. apply (Matches_lit "10.") in H as (r1 & -> & H).
  apply Matches_atom in H as (ds & r2 & -> & Hds & Hlo & Hhi & H). simpl in *.
  apply (Matches_lit "/") in H as (tl & -> & H).
  apply Matches_plus in H as [Hne Htl].
  exists ds, tl. repeat split; try assumption. now apply Hhi.
Qed.

Lemma arxiv_shape m :
  Matches arxiv_pattern m ->
  exists year number,
    m = "arXiv:" ++ year ++ "." ++ number /\
    all_chars is_digit year = true /\ String.length year = 4 /\
    all_chars is_digit number = true /\ 4 <= String.length number <= 5.
Proof.
  intros H. apply (Matches_lit "arXiv:") in H as (r1 & -> & H).
  apply Matches_atom in H as (y & r2 & -> & Hy & Hlo & Hhi & H). simpl in *.
  apply (Matches_lit ".") in H as (r3 & -> & H).
  apply Matches_atom in H as (n & r4 & -> & Hn & Hlo' & Hhi' & H). simpl in *.
  apply Matches_end in H. subst r4. rewrite append_empty_r.
  exists y, n. specialize (Hhi 4 eq_refl). specialize (Hhi' 5 eq_refl).
  repeat split; try assumption; lia.
Qed.

(** [rstrip] keeps a prefix whose last character is not stripped. *)
Lemma rstrip_cons_keep q c s :
  q c = false -> rstrip_by q (String c s) = String c (rstrip_by q s).
Proof. intros H. simpl. destruct (rstrip_by q s); [now rewrite H | reflexivity]. Qed.

Lemma rstrip_prefix q pre c r :
  last_char pre = Some c -> q c = false ->
  rstrip_by q (pre ++ r) = pre ++ rstrip_by q r.
Proof.
  induction pre as [|d pre IH]; [discriminate|].
  intros Hl Hq. destruct pre as [|e pre].
  - inversion Hl; subst. simpl append. now apply rstrip_cons_keep.
  - specialize (IH Hl Hq).
    change ((String d (String e pre)) ++ r) with (String d (String e pre ++ r)).
    cbn [rstrip_by]. rewrite IH. reflexivity.
Qed.

Lemma lstrip_keep q pre c r :
  head_char pre = Some c -> q c = false -> lstrip_by q (pre ++ r) = pre ++ r.
Proof.
  destruct pre as [|d pre]; [discriminate|].
  intros H Hq. inversion H; subst. simpl. now rewrite Hq.
Qed.

(** What [strip(',.()[]')] makes of a link. *)
Lemma stripped_link_shape p m :
  In p link_patterns -> Matches p m ->
  let l := strip_chars ",.()[]" m in
  (exists r, l = "http://" ++ r) \/ (exists r, l = "https://" ++ r) \/
  (exists r, l = "doi.org/" ++ r) \/ (exists r, l = "www." ++ r) \/ l = "www".
Proof.
  intros Hp Hm l. subst l. unfold strip_chars, strip_by.
  destruct Hp as [<-|[<-|[<-|[]]]].
  - apply link_http_shape in Hm as (r & _ & [->| ->]).
    + rewrite (lstrip_keep _ "http://" "h") by reflexivity.
      rewrite (rstrip_prefix _ "http://" "/") by reflexivity. left. eauto.
    + rewrite (lstrip_keep _ "https://" "h") by reflexivity.
      rewrite (rstrip_prefix _ "https://" "/") by reflexivity. right; left. eauto.
  - apply link_www_shape in Hm as (r & _ & ->).
    rewrite (lstrip_keep _ "www." "w") by reflexivity.
    change ("www." ++ r) with ("www" ++ String "." r).
    rewrite (rstrip_prefix _ "www" "w") by reflexivity.
    cbn [rstrip_by]. destruct (rstrip_by (char_in ",.()[]") r) as [|c r'].
    + right; right; right; right. reflexivity.
    + right; right; right; left. exists (String c r'). reflexivity.
  - apply link_doi_shape in Hm as (r & _ & ->).
    rewrite (lstrip_keep _ "doi.org/" "d") by reflexivity.
    rewrite (rstrip_prefix _ "doi.org/" "/") by reflexivity. right; right; left. eauto.
Qed.

Lemma link_In text l :
  In l (fst (fst (extract_links_and_dois text))) ->
  exists p m, In p link_patterns /\ In m (findall p text) /\ l = strip_chars ",.()[]" m.
Proof.
  unfold extract_links_and_dois, list_set. cbn [fst snd]. intros H.
  apply nodup_In in H. apply in_map_iff in H as (m & <- & Hm).
  apply in_flat_map in Hm as (p & Hp & Hm). exists p, m. repeat split; assumption.
Qed.

Lemma link_shape text l :
  In l (fst (fst (extract_links_and_dois text))) ->
  (exists r, l = "http://" ++ r) \/ (exists r, l = "https://" ++ r) \/
  (exists r, l = "doi.org/" ++ r) \/ (exists r, l = "www." ++ r) \/ l = "www".
Proof.
  intros H. apply link_In in H as (p & m & Hp & Hm & ->).
  apply (stripped_link_shape p m Hp). now apply findall_sound in Hm.
Qed.

Lemma doi_In text d :
  In d (snd (fst (extract_links_and_dois text))) -> In d (findall doi_pattern text).
Proof. unfold extract_links_and_dois, list_set. cbn [fst snd]. apply nodup_In. Qed.

Lemma arxiv_In text a :
  In a (snd (extract_links_and_dois text)) -> In a (findall arxiv_pattern text).
Proof. unfold extract_links_and_dois, list_set. cbn [fst snd]. apply nodup_In. Qed.

(** X5. A link that [extract_links_and_dois] returns never takes the
    arXiv identifier branch of the loop. If it contains 'arxiv.org' it
    takes the arXiv page branch, which fetches the link itself as an arXiv
    page. Otherwise it takes the web branch, which scrapes the page and
    resolves the title, with one exception: a [www.] match whose rest is
    made of the stripped characters only is cut down to 'www', which no
    branch handles. *)
Theorem links_are_handled_or_www (w : World) (text l : string) (st : State) :
  In l (fst (fst (extract_links_and_dois text))) ->
  startswith "arXiv:" l = false /\
  ((contains "arxiv.org" l = true /\
    calls (snd (dispatch w l st)) = (calls st ++ [Call_arxiv l])%list)
   \/
   (contains "arxiv.org" l = false /\ is_web l = true /\
    calls (snd (dispatch w l st)) = (calls st ++ [Call_url l; Call_title l])%list)
   \/
   (l = "www" /\ dispatched l = false /\ dispatch w l st = (Ok tt, st))).
Proof.
  intros H.
  assert (Hshape : startswith "arXiv:" l = false /\ (is_web l = true \/ l = "www")).
  { destruct (link_shape text l H) as [(r & ->)|[(r & ->)|[(r & ->)|[(r & ->)| ->]]]];
      (split; [reflexivity|]); (left; reflexivity) || (right; reflexivity). }
  destruct Hshape as [E1 [E3| ->]]; (split; [assumption || reflexivity|]).
  - destruct (dispatch_spec w l st) as (st1 & D & _ & _ & _ & Hcase).
    rewrite D. simpl snd.
    destruct (contains "arxiv.org" l) eqn:E2.
    + left. split; [reflexivity|].
      destruct Hcase as [(F & _)|[(_ & _ & _ & _ & C)|[(_ & F & _)|(F & _)]]];
        try congruence.
      unfold dispatched in F. rewrite E1, E2 in F. discriminate.
    + right; left. split; [reflexivity|]. split; [exact E3|].
      destruct Hcase as [(F & _)|[(_ & F & _)|[(_ & _ & _ & _ & _ & C)|(F & _)]]];
        try congruence.
      unfold dispatched in F. rewrite E1, E2, E3 in F. discriminate.
  - right; right. repeat split.
Qed.

Lemma links_are_handled_or_www_witness :
  In "www" (fst (fst (extract_links_and_dois
                        "see (www..), http://a.org. and https://arxiv.org/abs/2301.01234"))) /\
  In "http://a.org" (fst (fst (extract_links_and_dois
                        "see (www..), http://a.org. and https://arxiv.org/abs/2301.01234"))) /\
  In "https://arxiv.org/abs/2301.01234"
     (fst (fst (extract_links_and_dois
                  "see (www..), http://a.org. and https://arxiv.org/abs/2301.01234"))) /\
  dispatch meta_world "www" init_state = (Ok tt, init_state) /\
  calls (snd (dispatch meta_world "http://a.org" init_state))
  = [Call_url "http://a.org"; Call_title "http://a.org"] /\
  calls (snd (dispatch meta_world "https://arxiv.org/abs/2301.01234" init_state))
  = [Call_arxiv "https://arxiv.org/abs/2301.01234"].
Proof.
  assert (H1 : In "www" (fst (fst (extract_links_and_dois
                 "see (www..), http://a.org. and https://arxiv.org/abs/2301.01234"))))
    by (vm_compute; tauto).
  assert (H2 : In "http://a.org" (fst (fst (extract_links_and_dois
                 "see (www..), http://a.org. and https://arxiv.org/abs/2301.01234"))))
    by (vm_compute; tauto).
  assert (H3 : In "https://arxiv.org/abs/2301.01234" (fst (fst (extract_links_and_dois
                 "see (www..), http://a.org. and https://arxiv.org/abs/2301.01234"))))
    by (vm_compute; tauto).
  split; [exact H1|]. split; [exact H2|]. split; [exact H3|]. split; [|split].
  - destruct (links_are_handled_or_www meta_world _ _ init_state H1)
      as (_ & [(E & _)|[(_ & E & _)|(_ & _ & D)]]);
      [discriminate E | discriminate E | exact D].
  - destruct (links_are_handled_or_www meta_world _ _ init_state H2)
      as (_ & [(E & _)|[(_ & _ & C)|(E & _)]]);
      [discriminate E | exact C | discriminate E].
  - destruct (links_are_handled_or_www meta_world _ _ init_state H3)
      as (_ & [(_ & C)|[(E & _)|(E & _)]]);
      [exact C | discriminate E | discriminate E].
Defined.

(** X6. No DOI that [extract_links_and_dois] returns reaches the arXiv
    identifier branch or the web branch of the loop: it is handled only if
    it contains 'arxiv.org', and is otherwise left to the variables of the
    previous iteration. *)
Theorem dois_fall_through (text d : string) :
  In d (snd (fst (extract_links_and_dois text))) ->
  startswith "arXiv:" d = false /\ is_web d = false /\
  dispatched d = contains "arxiv.org" d.
Proof.
  intros H. apply doi_In, findall_sound, doi_shape in H
    as (ds & tl & -> & _).
  unfold dispatched.
  assert (E1 : startswith "arXiv:" ("10." ++ ds ++ "/" ++ tl) = false) by reflexivity.
  assert (E2 : is_web ("10." ++ ds ++ "/" ++ tl) = false) by reflexivity.
  rewrite E1, E2, orb_false_r. repeat split.
Qed.

Lemma dois_fall_through_witness :
  In sample_doi (snd (fst (extract_links_and_dois sample_text))) /\
  startswith "arXiv:" sample_doi = false /\ is_web sample_doi = false /\
  dispatched sample_doi = contains "arxiv.org" sample_doi.
Proof.
  assert (H : In sample_doi (snd (fst (extract_links_and_dois sample_text))))
    by (left; reflexivity).
  split; [exact H|]. exact (dois_fall_through sample_text sample_doi H).
Defined.

Lemma digit_not_colon c : is_digit c = true -> negb (Ascii.eqb c ":") = true.
Proof. by_cases_on_char c. Qed.

Lemma last_segment_no_sep sep s : forall acc,
  all_chars (fun c => negb (Ascii.eqb c sep)) s = true ->
  last_segment_from sep acc s = acc.
Proof.
  induction s as [|c s IH]; intros acc H; [reflexivity|].
  simpl in *. apply andb_true_iff in H as [Hc Hs].
  apply negb_true_iff in Hc. rewrite Hc. now apply IH.
Qed.

(** X7. Every arXiv identifier that [extract_links_and_dois] returns has
    15 or 16 characters and takes the first branch of the loop, which
    fetches the page [https://arxiv.org/abs/] followed by the identifier
    without its [arXiv:] label, and nothing else. *)
Theorem arxiv_ids_fetch_the_abs_page (w : World) (text a : string) (st : State) :
  In a (snd (extract_links_and_dois text)) ->
  startswith "arXiv:" a = true /\
  (String.length a = 15 \/ String.length a = 16) /\
  calls (snd (dispatch w a st))
  = (calls st ++ [Call_arxiv ("https://arxiv.org/abs/" ++ str_drop 6 a)])%list.
Proof.
  intros H. apply arxiv_In, findall_sound, arxiv_shape in H
    as (y & n & -> & Hy & Ly & Hn & Ln).
  split; [reflexivity|]. split.
  - simpl. rewrite append_length. simpl. rewrite Ly. lia.
  - destruct (dispatch_spec w ("arXiv:" ++ y ++ "." ++ n) st)
      as (st1 & D & _ & _ & _ & Hcase).
    rewrite D. simpl snd.
    destruct Hcase as [(_ & _ & _ & C)|[(F & _)|[(F & _)|(F & _)]]];
      try discriminate F.
    rewrite C. do 3 f_equal.
    change (split_last ":" ("arXiv:" ++ y ++ "." ++ n))
      with (last_segment_from ":" (y ++ "." ++ n) (y ++ "." ++ n)).
    change (str_drop 6 ("arXiv:" ++ y ++ "." ++ n)) with (y ++ "." ++ n).
    f_equal. apply last_segment_no_sep.
    rewrite all_chars_app. simpl.
    rewrite (all_chars_weaken _ _ _ digit_not_colon Hy).
    rewrite (all_chars_weaken _ _ _ digit_not_colon Hn). reflexivity.
Qed.

Lemma arxiv_ids_fetch_the_abs_page_witness :
  In sample_arxiv (snd (extract_links_and_dois sample_text)) /\
  calls (snd (dispatch meta_world sample_arxiv init_state))
  = [Call_arxiv "https://arxiv.org/abs/2301.01234"].
Proof.
  assert (H : In sample_arxiv (snd (extract_links_and_dois sample_text)))
    by (left; reflexivity).
  split; [exact H|].
  exact (proj2 (proj2 (arxiv_ids_fetch_the_abs_page meta_world sample_text sample_arxiv
                         init_state H))).
Defined.

Lemma nodup_app_disjoint (l1 l2 : list string) e :
  NoDup (l1 ++ l2)%list -> In e l1 -> ~ In e l2.
Proof.
  induction l1 as [|x l1 IH]; [intros _ []|].
  simpl. intros N [->|He] H2; inversion N as [|y ys Hy Hys]; subst.
  - apply Hy, in_or_app. now right.
  - now apply IH.
Qed.

Lemma references_nodup (text : string) :
  let '(links, dois, arxiv_ids) := extract_links_and_dois text in
  NoDup (links ++ dois ++ arxiv_ids)%list.
Proof.
  destruct (extract_links_and_dois text) as [[links dois] arxiv_ids] eqn:E.
  assert (N1 : NoDup links /\ NoDup dois /\ NoDup arxiv_ids).
  { revert E. unfold extract_links_and_dois, list_set. intros E.
    inversion E; subst. repeat split; apply NoDup_nodup. }
  destruct N1 as (N1 & N2 & N3).
  assert (Hl : forall l, In l links -> exists c r, l = String c r /\ c <> "1"%char /\ c <> "a"%char).
  { intros l H. replace links with (fst (fst (extract_links_and_dois text))) in H
      by now rewrite E.
    destruct (link_shape text l H) as [(r & ->)|[(r & ->)|[(r & ->)|[(r & ->)| ->]]]];
      do 2 eexists; (split; [reflexivity|]); split; discriminate. }
  assert (Hd : forall d, In d dois -> exists r, d = String "1" r).
  { intros d H. replace dois with (snd (fst (extract_links_and_dois text))) in H
      by now rewrite E.
    apply doi_In, findall_sound, doi_shape in H as (ds & tl & -> & _).
    eexists. reflexivity. }
  assert (Ha : forall a, In a arxiv_ids -> exists r, a = String "a" r).
  { intros a H. replace arxiv_ids with (snd (extract_links_and_dois text)) in H
      by now rewrite E.
    apply arxiv_In, findall_sound, arxiv_shape in H as (y & n & -> & _).
    eexists. reflexivity. }
  apply NoDup_app; [exact N1 | |].
  - apply NoDup_app; [exact N2 | exact N3 |].
    intros d H1 H2. destruct (Hd d H1) as (r & ->). destruct (Ha _ H2) as (r' & F).
    discriminate F.
  - intros l H1 H2. destruct (Hl l H1) as (c & r & -> & C1 & C2).
    apply in_app_or in H2 as [H2|H2].
    + destruct (Hd _ H2) as (r' & F). inversion F. congruence.
    + destruct (Ha _ H2) as (r' & F). inversion F. congruence.
Qed.

(** X8. The three collections that [extract_links_and_dois] returns have
    no entry in common: a link starts with 'h', 'w' or 'd', a DOI with
    '1', an arXiv identifier with 'a'. The loop over their concatenation
    therefore meets every reference once. *)
Theorem references_are_pairwise_distinct (text : string) :
  let '(links, dois, arxiv_ids) := extract_links_and_dois text in
  NoDup (links ++ dois ++ arxiv_ids)%list /\
  (forall e, In e links -> ~ In e dois /\ ~ In e arxiv_ids) /\
  (forall e, In e dois -> ~ In e arxiv_ids).
Proof.
  pose proof (references_nodup text) as N.
  destruct (extract_links_and_dois text) as [[links dois] arxiv_ids].
  split; [exact N|]. split.
  - intros e He.
    pose proof (nodup_app_disjoint _ _ e N He) as D.
    split; intros H; apply D, in_or_app; [now left | now right].
  - intros e He. apply (nodup_app_disjoint dois arxiv_ids e); [|exact He].
    apply (NoDup_app_remove_l _ _ N).
Qed.

(** ** References come from the text *)

Lemma occurs_in_cons m c s : occurs_in m s -> occurs_in m (String c s).
Proof. intros (b & a & ->). exists (String c b), a. reflexivity. Qed.

Lemma occurs_in_trans m s t : occurs_in m s -> occurs_in s t -> occurs_in m t.
Proof.
  intros (b1 & a1 & ->) (b2 & a2 & ->). exists (b2 ++ b1), (a1 ++ a2).
  now rewrite !append_assoc.
Qed.

Lemma take_occurs n s : occurs_in (str_take n s) s.
Proof. exists EmptyString, (str_drop n s). simpl. now rewrite str_take_drop. Qed.

Lemma lstrip_suffix q s : exists before, s = before ++ lstrip_by q s.
Proof.
  induction s as [|c s (b & IH)]; [now exists EmptyString|].
  simpl. destruct (q c).
  - exists (String c b). simpl. now rewrite <- IH.
  - now exists EmptyString.
Qed.

Lemma rstrip_prefix_of q s : exists after, s = rstrip_by q s ++ after.
Proof.
  induction s as [|c s (a & IH)]; [now exists EmptyString|].
  simpl. destruct (rstrip_by q s) as [|d r].
  - destruct (q c).
    + now exists (String c s).
    + exists s. reflexivity.
  - exists a. simpl in *. now f_equal.
Qed.

Lemma strip_occurs q s : occurs_in (strip_by q s) s.
Proof.
  unfold strip_by. destruct (lstrip_suffix q s) as (b & Hb).
  destruct (rstrip_prefix_of q (lstrip_by q s)) as (a & Ha).
  exists b, a. now rewrite <- Ha.
Qed.

Lemma findall_from_occurs p s : forall skip m,
  In m (findall_from skip p s) -> occurs_in m s.
Proof.
  induction s as [|c s IH]; intros skip m.
  - destruct skip; simpl; [|contradiction].
    destruct (match_here p EmptyString) as [[|n]|]; simpl; try contradiction.
    intros [<-|[]]. exists EmptyString, EmptyString. reflexivity.
  - destruct skip; cbn [findall_from].
    + destruct (match_here p (String c s)) as [[|n]|].
      * intros H. apply occurs_in_cons, (IH _ _ H).
      * intros [<-|H]; [apply take_occurs | apply occurs_in_cons, (IH _ _ H)].
      * intros H. apply occurs_in_cons, (IH _ _ H).
    + intros H. apply occurs_in_cons, (IH _ _ H).
Qed.

(** X9. [extract_links_and_dois] invents nothing: every link, DOI and
    arXiv identifier it returns occurs in the text as a contiguous piece. *)
Theorem references_occur_in_text (text e : string) :
  (let '(links, dois, arxiv_ids) := extract_links_and_dois text in
   In e (links ++ dois ++ arxiv_ids)%list) ->
  occurs_in e text.
Proof.
  unfold extract_links_and_dois, list_set. intros H.
  apply in_app_or in H as [H|H]; [|apply in_app_or in H as [H|H]];
    apply nodup_In in H.
  - apply in_map_iff in H as (m & <- & Hm).
    apply in_flat_map in Hm as (p & _ & Hm).
    apply (occurs_in_trans _ m); [apply strip_occurs | apply (findall_from_occurs _ _ _ _ Hm)].
  - apply (findall_from_occurs _ _ _ _ H).
  - apply (findall_from_occurs _ _ _ _ H).
Qed.

Lemma references_occur_in_text_witness :
  (let '(links, dois, arxiv_ids) := extract_links_and_dois sample_text in
   In sample_link (links ++ dois ++ arxiv_ids)%list) /\
  occurs_in sample_link sample_text.
Proof.
  assert (H : let '(links, dois, arxiv_ids) := extract_links_and_dois sample_text in
              In sample_link (links ++ dois ++ arxiv_ids)%list)
    by (left; reflexivity).
  split; [exact H|]. exact (references_occur_in_text sample_text sample_link H).
Defined.

(** ** The order of the report *)

Lemma keys_set_known {V : Type} k (v : V) d :
  In k (Dict.keys d) -> Dict.keys (Dict.set k v d) = Dict.keys d.
Proof.
  induction d as [|[k' v'] d IH]; [intros []|].
  simpl. destruct (String.eqb k' k) eqn:E.
  - apply String.eqb_eq in E. subst. reflexivity.
  - intros [H|H]; [subst; now rewrite String.eqb_refl in E|].
    simpl. now rewrite IH.
Qed.

Lemma keys_set_new {V : Type} k (v : V) d :
  ~ In k (Dict.keys d) -> Dict.keys (Dict.set k v d) = (Dict.keys d ++ [k])%list.
Proof.
  induction d as [|[k' v'] d IH]; [reflexivity|].
  simpl. intros H. destruct (String.eqb k' k) eqn:E.
  - apply String.eqb_eq in E. subst. elim H. now left.
  - simpl. rewrite IH; [reflexivity|]. intros Hin. apply H. now right.
Qed.

Lemma for_each_keys w text refs : forall st,
  NoDup refs ->
  (forall r, In r refs -> ~ In r (Dict.keys (metadata st))) ->
  Dict.keys (metadata (snd (for_each refs (process_source w text) st)))
  = (Dict.keys (metadata st) ++ refs)%list.
Proof.
  induction refs as [|r refs IH]; intros st Hnd Hnew.
  - simpl. now rewrite app_nil_r.
  - inversion Hnd as [|x xs Hr Hnd']; subst.
    destruct (process_source_spec w text r st) as (i & st1 & P & Pm & _).
    simpl. unfold bind. rewrite P.
    assert (K : Dict.keys (metadata st1) = (Dict.keys (metadata st) ++ [r])%list).
    { rewrite Pm. apply keys_set_new. apply Hnew. now left. }
    rewrite IH; [| exact Hnd' |].
    + now rewrite K, <- app_assoc.
    + intros r' Hin. rewrite K. intros Hk. apply in_app_or in Hk as [Hk|[<-|[]]].
      * apply (Hnew r'); [now right | exact Hk].
      * contradiction.
Qed.

(** ** The writers and the pipeline *)

Lemma create_output_pdf_spec w path st :
  exists st' line,
    create_output_pdf w path st = (Ok tt, st') /\
    metadata st' = metadata st /\ v_title st' = v_title st /\
    v_abstract st' = v_abstract st /\ calls st' = calls st /\
    stdout st' = (stdout st ++ [line])%list /\
    files st' =
    (files st ++
     if negb (is_empty (metadata st)) && succeeds (add_font w) && succeeds (write_file w path)
     then [(path, PdfDoc (pdf_document (metadata st)))] else [])%list.
Proof.
  unfold create_output_pdf, try_except, save, bind, lift_exn.
  destruct (metadata st) as [|e m] eqn:E; simpl.
  - do 2 eexists. split; [reflexivity|]. simpl. rewrite app_nil_r. repeat split. exact E.
  - destruct (add_font w) as [x|]; simpl.
    + destruct x; do 2 eexists; (split; [reflexivity|]); simpl;
        rewrite app_nil_r; repeat split; exact E.
    + destruct (write_file w path) as [x|]; simpl.
      * destruct x; do 2 eexists; (split; [reflexivity|]); simpl;
          rewrite app_nil_r; repeat split; exact E.
      * do 2 eexists. split; [reflexivity|]. simpl. repeat split. exact E.
Qed.

Lemma create_output_html_spec w path st :
  exists st' line,
    create_output_html w path st = (Ok tt, st') /\
    metadata st' = metadata st /\ v_title st' = v_title st /\
    v_abstract st' = v_abstract st /\ calls st' = calls st /\
    stdout st' = (stdout st ++ [line])%list /\
    files st' =
    (files st ++
     if negb (is_empty (metadata st)) && succeeds (write_file w path)
     then [(path, HtmlDoc (html_document w (metadata st)))] else [])%list.
Proof.
  unfold create_output_html, try_except, save, bind, lift_exn.
  destruct (metadata st) as [|e m] eqn:E; simpl.
  - do 2 eexists. split; [reflexivity|]. simpl. rewrite app_nil_r. repeat split. exact E.
  - destruct (write_file w path) as [x|]; simpl.
    + do 2 eexists. split; [reflexivity|]. simpl. rewrite app_nil_r. repeat split. exact E.
    + do 2 eexists. split; [reflexivity|]. simpl. repeat split. exact E.
Qed.

(** X10. Neither writer raises, whatever the font loader and the file
    system do, and neither touches the metadata mapping. Each prints one
    line. The PDF is written exactly when the mapping is not empty, the
    font loads and the write succeeds; the HTML exactly when the mapping is
    not empty and the write succeeds. *)
Theorem writers_never_raise (w : World) (path : string) (st : State) :
  (exists st' line,
     create_output_pdf w path st = (Ok tt, st') /\
     metadata st' = metadata st /\
     stdout st' = (stdout st ++ [line])%list /\
     files st' =
     (files st ++
      if negb (is_empty (metadata st)) && succeeds (add_font w)
         && succeeds (write_file w path)
      then [(path, PdfDoc (pdf_document (metadata st)))] else [])%list) /\
  (exists st' line,
     create_output_html w path st = (Ok tt, st') /\
     metadata st' = metadata st /\
     stdout st' = (stdout st ++ [line])%list /\
     files st' =
     (files st ++
      if negb (is_empty (metadata st)) && succeeds (write_file w path)
      then [(path, HtmlDoc (html_document w (metadata st)))] else [])%list).
Proof.
  split.
  - destruct (create_output_pdf_spec w path st) as (st' & line & P & M & _ & _ & _ & O & F).
    exists st', line. repeat split; assumption.
  - destruct (create_output_html_spec w path st) as (st' & line & P & M & _ & _ & _ & O & F).
    exists st', line. repeat split; assumption.
Qed.

Lemma workflow_spec w input_pdf_path output_pdf_path st :
  exists st1 st2 st3 line1 line2,
    (let '(links, dois, arxiv_ids) :=
       extract_links_and_dois (extract_text_from_pdf w input_pdf_path) in
     process_links_and_dois w (extract_text_from_pdf w input_pdf_path)
       links dois arxiv_ids st) = (Ok tt, st1) /\
    create_output_pdf w output_pdf_path st1 = (Ok tt, st2) /\
    create_output_html w (replace ".pdf" ".html" output_pdf_path) st2 = (Ok tt, st3) /\
    workflow w input_pdf_path output_pdf_path st =
    (Ok tt,
     with_stdout
       (stdout st3 ++
        [("Extraction complete. Outputs saved to PDF: " ++ output_pdf_path
          ++ " and HTML: " ++ replace ".pdf" ".html" output_pdf_path)%string])%list st3) /\
    metadata st3 = metadata st1 /\
    stdout st3 = (stdout st ++ [line1; line2])%list /\
    files st3 =
    (files st ++
     (if negb (is_empty (metadata st1)) && succeeds (add_font w)
         && succeeds (write_file w output_pdf_path)
      then [(output_pdf_path, PdfDoc (pdf_document (metadata st1)))] else []) ++
     (if negb (is_empty (metadata st1))
         && succeeds (write_file w (replace ".pdf" ".html" output_pdf_path))
      then [(replace ".pdf" ".html" output_pdf_path,
             HtmlDoc (html_document w (metadata st1)))] else []))%list.
Proof.
  unfold workflow, try_except.
  destruct (extract_links_and_dois (extract_text_from_pdf w input_pdf_path))
    as [[links dois] arxiv_ids].
  destruct (process_links_and_dois_spec w (extract_text_from_pdf w input_pdf_path)
              links dois arxiv_ids st) as (st1 & P1 & _ & _ & O1 & F1).
  destruct (create_output_pdf_spec w output_pdf_path st1)
    as (st2 & line1 & P2 & M2 & _ & _ & _ & O2 & F2).
  destruct (create_output_html_spec w (replace ".pdf" ".html" output_pdf_path) st2)
    as (st3 & line2 & P3 & M3 & _ & _ & _ & O3 & F3).
  exists st1, st2, st3, line1, line2.
  split; [exact P1|]. split; [exact P2|]. split; [exact P3|]. split.
  - unfold bind. rewrite P1, P2, P3. reflexivity.
  - split; [congruence|]. split.
    + rewrite O3, O2, O1, <- app_assoc. reflexivity.
    + rewrite F3, F2, F1, M2, <- app_assoc. reflexivity.
Qed.

(** X11. [workflow] never raises and always ends by printing 'Extraction
    complete. Outputs saved to PDF: ... and HTML: ...', after one line from
    each writer, also when no file was written. The two writers are
    independent: the PDF is written when there is a record, the font loads
    and its write succeeds, the HTML when there is a record and its write
    succeeds. *)
Theorem workflow_always_completes (w : World) (input_pdf_path output_pdf_path : string)
    (st : State) :
  exists st' line1 line2,
    workflow w input_pdf_path output_pdf_path st = (Ok tt, st') /\
    stdout st' =
    (stdout st ++
     [line1; line2;
      ("Extraction complete. Outputs saved to PDF: " ++ output_pdf_path
       ++ " and HTML: " ++ replace ".pdf" ".html" output_pdf_path)%string])%list /\
    files st' =
    (files st ++
     (if negb (is_empty (metadata st')) && succeeds (add_font w)
         && succeeds (write_file w output_pdf_path)
      then [(output_pdf_path, PdfDoc (pdf_document (metadata st')))] else []) ++
     (if negb (is_empty (metadata st'))
         && succeeds (write_file w (replace ".pdf" ".html" output_pdf_path))
      then [(replace ".pdf" ".html" output_pdf_path,
             HtmlDoc (html_document w (metadata st')))] else []))%list.
Proof.
  destruct (workflow_spec w input_pdf_path output_pdf_path st)
    as (st1 & st2 & st3 & line1 & line2 & _ & _ & _ & W & M & O & F).
  eexists. exists line1, line2. split; [exact W|]. simpl. split.
  - rewrite O, <- app_assoc. reflexivity.
  - rewrite M. exact F.
Qed.

Lemma html_rows_indices w m : forall k,
  map row_index (html_rows w k m) = seq k (List.length m).
Proof.
  induction m as [|[source i] m IH]; intros k; simpl; [reflexivity|].
  now rewrite IH.
Qed.

(** X12. On a new extractor, the metadata mapping left by [workflow] has
    one entry per extracted reference, in the order links, DOIs, arXiv
    identifiers. The HTML document, which is what is written when the
    mapping is not empty and the write succeeds, holds one row per
    reference in that order, numbered 1, 2, ... *)
Theorem report_lists_each_reference_once (w : World)
    (input_pdf_path output_pdf_path : string) :
  let '(links, dois, arxiv_ids) :=
    extract_links_and_dois (extract_text_from_pdf w input_pdf_path) in
  let st' := snd (workflow w input_pdf_path output_pdf_path init_state) in
  let m := metadata st' in
  Dict.keys m = (links ++ dois ++ arxiv_ids)%list /\
  html_document w m
  = html_head
    ++ String.concat EmptyString
         (map (fun p : nat * (string * info) =>
            "
                    <tr>
                        <td>" ++ str_of_nat (fst p) ++ "</td>
                        <td>" ++ extract_title_from_url w (fst (snd p)) ++ "</td>
                        <td>" ++ str_take 500 (abstract_of (snd (snd p))) ++ "...</td>
                        <td><a href='" ++ fst (snd p) ++ "' target='_blank'>"
            ++ fst (snd p) ++ "</a></td>
                    </tr>
                ")
            (combine (seq 1 (List.length (links ++ dois ++ arxiv_ids)%list)) m))
    ++ html_tail /\
  map row_index (html_rows w 1 m) = seq 1 (List.length (links ++ dois ++ arxiv_ids)%list) /\
  (m <> [] -> write_file w (replace ".pdf" ".html" output_pdf_path) = None ->
   In (replace ".pdf" ".html" output_pdf_path, HtmlDoc (html_document w m)) (files st')).
Proof.
  destruct (workflow_spec w input_pdf_path output_pdf_path init_state)
    as (st1 & st2 & st3 & line1 & line2 & P & _ & _ & W & M & _ & F).
  pose proof (references_nodup (extract_text_from_pdf w input_pdf_path)) as N.
  destruct (extract_links_and_dois (extract_text_from_pdf w input_pdf_path))
    as [[links dois] arxiv_ids].
  rewrite W. cbn [snd metadata files with_stdout]. rewrite M.
  assert (K : Dict.keys (metadata st1) = (links ++ dois ++ arxiv_ids)%list).
  { revert P. unfold process_links_and_dois, bind, modify. intros P.
    pose proof (for_each_keys w (extract_text_from_pdf w input_pdf_path)
                  (links ++ dois ++ arxiv_ids)%list (fresh_locals init_state) N) as Hk.
    rewrite P in Hk. apply Hk. intros r _ []. }
  assert (L : List.length (links ++ dois ++ arxiv_ids)%list = List.length (metadata st1)).
  { rewrite <- K. unfold Dict.keys. now rewrite length_map. }
  split; [exact K|]. split; [rewrite L; apply html_document_text|].
  split; [rewrite html_rows_indices; now rewrite L|].
  intros Hne Hw. rewrite F, Hw.
  apply in_or_app. right. apply in_or_app. right.
  destruct (metadata st1); [congruence|]. now left.
Qed.

Lemma replace_from_absent old new s :
  contains old s = false -> replace_from 0 old new s = s.
Proof.
  induction s as [|c s IH]; [reflexivity|].
  intros H. cbn [contains] in H. apply orb_false_iff in H as [H1 H2].
  cbn [replace_from]. rewrite H1. now rewrite IH.
Qed.

(** X13. When the output path does not contain '.pdf', the path of the
    HTML report is the output path itself: the HTML report is written to
    the file the PDF report was just written to. *)
Theorem html_report_takes_the_pdf_path (w : World) (input_pdf_path output_pdf_path : string)
    (st : State) :
  contains ".pdf" output_pdf_path = false ->
  replace ".pdf" ".html" output_pdf_path = output_pdf_path /\
  exists st',
    workflow w input_pdf_path output_pdf_path st = (Ok tt, st') /\
    (metadata st' <> [] -> add_font w = None -> write_file w output_pdf_path = None ->
     files st' =
     (files st ++ [ (output_pdf_path, PdfDoc (pdf_document (metadata st')));
                    (output_pdf_path, HtmlDoc (html_document w (metadata st'))) ])%list).
Proof.
  intros H.
  assert (R : replace ".pdf" ".html" output_pdf_path = output_pdf_path)
    by (apply replace_from_absent, H).
  split; [exact R|].
  destruct (workflow_spec w input_pdf_path output_pdf_path st)
    as (st1 & st2 & st3 & line1 & line2 & _ & _ & _ & W & M & _ & F).
  eexists. split; [exact W|]. simpl. rewrite M. intros Hne Hfont Hwrite.
  rewrite F, R, Hfont, Hwrite.
  destruct (metadata st1); [congruence | reflexivity].
Qed.

Lemma html_report_takes_the_pdf_path_witness :
  contains ".pdf" "report" = false /\
  map fst (files (snd (workflow meta_world "paper.pdf" "report" init_state)))
  = ["report"; "report"].
Proof.
  split; [reflexivity|].
  destruct (html_report_takes_the_pdf_path meta_world "paper.pdf" "report" init_state eq_refl)
    as (_ & st' & W & F).
  rewrite W. simpl snd.
  assert (Hne : metadata st' <> []).
  { assert (E : st' = snd (workflow meta_world "paper.pdf" "report" init_state))
      by now rewrite W.
    rewrite E. discriminate. }
  rewrite (F Hne eq_refl eq_refl). reflexivity.
Defined.

(** ** The in-document heuristic *)

Lemma strip_by_length q s : String.length (strip_by q s) <= String.length s.
Proof.
  destruct (strip_occurs q s) as (b & a & E).
  rewrite E at 2. rewrite !append_length. lia.
Qed.

Lemma collapse_spaces_length s : forall b,
  String.length (collapse_spaces_from b s) <= String.length s.
Proof.
  induction s as [|c s IH]; intros b; simpl; [lia|].
  destruct (is_space c).
  - destruct b; simpl; [specialize (IH true) | specialize (IH true)]; lia.
  - simpl. specialize (IH false). lia.
Qed.

Lemma collapse_spaces_plain s : forall b,
  all_chars plain_space (collapse_spaces_from b s) = true.
Proof.
  induction s as [|c s IH]; intros b; simpl; [reflexivity|].
  destruct (is_space c) eqn:E.
  - destruct b; simpl; [apply IH | now rewrite IH].
  - simpl. unfold plain_space at 1. rewrite E. simpl. apply IH.
Qed.

Lemma clean_length a : String.length (clean a) <= String.length a.
Proof.
  unfold clean, strip. pose proof (strip_by_length is_space (collapse_spaces a)).
  pose proof (collapse_spaces_length a false). unfold collapse_spaces in *. lia.
Qed.

Lemma lstrip_head q s c : head_char (lstrip_by q s) = Some c -> q c = false.
Proof.
  induction s as [|d s IH]; simpl; [discriminate|].
  destruct (q d) eqn:E; [exact IH|].
  simpl. intros H; inversion H; subst. exact E.
Qed.

Lemma rstrip_head q s c : head_char (rstrip_by q s) = Some c -> head_char s = Some c.
Proof.
  destruct s as [|d s]; simpl; [discriminate|].
  destruct (rstrip_by q s); [destruct (q d)|]; simpl; try discriminate; auto.
Qed.

Lemma clean_no_outer_space a : no_outer_space (clean a).
Proof.
  unfold clean, strip, strip_by. split; intros c H.
  - apply rstrip_head in H. now apply lstrip_head in H.
  - now apply rstrip_last in H.
Qed.

Lemma lazy_capture_length s : forall r,
  lazy_capture s = Some r -> String.length r <= String.length s.
Proof.
  induction s as [|c s IH]; intros r; simpl; [discriminate|].
  destruct (abstract_end s).
  - intros H; inversion H; subst. simpl. lia.
  - destruct (lazy_capture s) as [r'|]; simpl; [|discriminate].
    intros H; inversion H; subst. simpl. specialize (IH r' eq_refl). lia.
Qed.

Lemma search_length {A : Type} (m : string -> option A) s : forall r,
  search m s = Some r ->
  exists s', String.length s' <= String.length s /\ m s' = Some r.
Proof.
  induction s as [|c s IH]; intros r; simpl.
  - destruct (m EmptyString) eqn:E; [|discriminate].
    intros H; inversion H; subst. exists EmptyString. split; [simpl; lia | exact E].
  - destruct (m (String c s)) eqn:E.
    + intros H; inversion H; subst. exists (String c s). split; [simpl; lia | exact E].
    + intros H. destruct (IH r H) as (s' & L & M). exists s'. split; [simpl; lia | exact M].
Qed.

Lemma str_take_within n s : String.length (str_take n s) <= String.length s.
Proof.
  revert s; induction n as [|n IH]; intros [|c s]; simpl; try lia.
  specialize (IH s). lia.
Qed.

Lemma first_labelled_length text a :
  first_labelled text = Some a -> String.length a <= String.length text.
Proof.
  unfold first_labelled. intros H.
  apply search_length in H as (s' & L & M).
  destruct (match_then abstract_label lazy_capture s') as [[n r]|] eqn:E; [|discriminate].
  simpl in M. inversion M; subst.
  destruct (match_then_sound _ _ _ _ _ E) as (_ & Hn & Hk).
  apply lazy_capture_length in Hk. rewrite str_drop_length in Hk. lia.
Qed.

Lemma first_block_length text a :
  first_block text = Some a -> String.length a <= String.length text.
Proof.
  unfold first_block. intros H.
  apply search_length in H as (s' & L & M). cbv zeta in M.
  destruct (50 <=? tempered_run 500 s'); [|discriminate].
  assert (E : a = str_take (tempered_run 500 s') s') by congruence.
  rewrite E. pose proof (str_take_within (tempered_run 500 s') s'). lia.
Qed.

Lemma long_enough_spec found r :
  long_enough found = Some r ->
  exists a, found = Some a /\ r = clean a /\ 50 < String.length r.
Proof.
  unfold long_enough. destruct found as [a|]; [|discriminate].
  destruct (50 <? String.length (clean a)) eqn:E; [|discriminate].
  intros H; inversion H; subst. apply Nat.ltb_lt in E. eauto.
Qed.

(** X14. [extract_abstract_from_text] returns either 'No abstract found in
    text' or a string of more than 50 characters, no longer than the text,
    with no white space at either end and no white space inside other
    than the space character. A text of at most 50 characters always gives
    'No abstract found in text'. *)
Theorem heuristic_abstract_shape (text : string) :
  let r := extract_abstract_from_text text in
  (r = "No abstract found in text" \/
   (50 < String.length r /\ String.length r <= String.length text /\
    no_outer_space r /\ all_chars plain_space r = true)) /\
  (String.length text <= 50 -> r = "No abstract found in text").
Proof.
  assert (Hshape : forall found r,
            (forall a, found = Some a -> String.length a <= String.length text) ->
            long_enough found = Some r ->
            50 < String.length r /\ String.length r <= String.length text /\
            no_outer_space r /\ all_chars plain_space r = true).
  { intros found r Hlen H. apply long_enough_spec in H as (a & -> & -> & L).
    split; [exact L|]. split.
    - pose proof (clean_length a). specialize (Hlen a eq_refl). lia.
    - split; [apply clean_no_outer_space|].
      unfold clean, strip. apply all_chars_strip, collapse_spaces_plain. }
  assert (Hmain : let r := extract_abstract_from_text text in
            r = "No abstract found in text" \/
            (50 < String.length r /\ String.length r <= String.length text /\
             no_outer_space r /\ all_chars plain_space r = true)).
  { unfold extract_abstract_from_text.
    destruct (long_enough (first_labelled text)) as [r1|] eqn:E1.
    - right. apply (Hshape _ _ (first_labelled_length text) E1).
    - destruct (long_enough (first_block text)) as [r2|] eqn:E2.
      + right. apply (Hshape _ _ (first_block_length text) E2).
      + left. reflexivity. }
  split; [exact Hmain|].
  intros Hshort. destruct Hmain as [H|(H1 & H2 & _)]; [exact H | lia].
Qed.

Lemma heuristic_abstract_shape_witness :
  String.length "Abstract: too short" <= 50 /\
  extract_abstract_from_text "Abstract: too short" = "No abstract found in text".
Proof.
  assert (L : String.length "Abstract: too short" <= 50) by (simpl; lia).
  split; [exact L|].
  exact (proj2 (heuristic_abstract_shape "Abstract: too short") L).
Defined.

(** ** An empty scrape *)

Lemma lstrip_all q s : all_chars q s = true -> lstrip_by q s = EmptyString.
Proof.
  induction s as [|c s IH]; simpl; [reflexivity|].
  intros H. apply andb_true_iff in H as [Hc Hs]. rewrite Hc. now apply IH.
Qed.

Lemma strip_all q s : all_chars q s = true -> strip_by q s = EmptyString.
Proof. intros H. unfold strip_by. now rewrite lstrip_all. Qed.

(** X15. A description of more than 50 characters that are all white
    space passes the length test of the webpage scrape and is returned
    trimmed, that is, as the empty string. For a web reference that is one
    case in which the loop goes on to the API stage: the title is resolved
    again and the abstract recorded is the answer of
    [extract_abstract_alternative] for that title. *)
Theorem blank_description_reaches_the_api (w : World) (document_text url : string)
    (response : Response) (m : Tag) (content : string) (st : State) :
  requests_get w url true = Some response ->
  status_code response = 200 ->
  soup_find "meta" named_description (html_parser w (text response)) = Some m ->
  Dict.get "content" (tag_attrs m) = Some content ->
  50 < String.length content ->
  all_chars is_space content = true ->
  extract_abstract_from_url w url = EmptyString /\
  (startswith "arXiv:" url = false -> contains "arxiv.org" url = false ->
   is_web url = true ->
   metadata (snd (process_source w document_text url st)) =
   Dict.set url
     (record (extract_title_from_url w url)
        (extract_abstract_alternative w (extract_title_from_url w url)))
     (metadata st)).
Proof.
  intros Hget Hstatus Hmeta Hcontent Hlen Hblank.
  assert (E : extract_abstract_from_url w url = EmptyString).
  { unfold extract_abstract_from_url. rewrite Hget, Hstatus. simpl.
    unfold abstract_candidates. rewrite Hmeta. simpl.
    unfold tag_get, Dict.get_default. rewrite Hcontent.
    assert (truthy content = true) as ->
      by (destruct content; [simpl in Hlen; lia | reflexivity]).
    apply Nat.ltb_lt in Hlen. rewrite Hlen. simpl.
    unfold strip. now apply strip_all. }
  split; [exact E|]. intros E1 E2 E3.
  destruct (dispatch_spec w url st) as (st1 & D & Hm & _ & _ & Hcase).
  unfold process_source, try_except, resolve, bind. rewrite D.
  destruct Hcase as [(F & _)|[(_ & F & _)|[(_ & _ & _ & _ & Ha & _)|(F & _)]]];
    try congruence.
  - rewrite E in Ha.
    destruct (fallback_empty w document_text url st1 Ha) as (st2 & F & Fm & _).
    rewrite F. simpl. now rewrite Fm, Hm.
  - unfold dispatched in F. rewrite E1, E2, E3 in F. discriminate.
Qed.

Lemma blank_description_reaches_the_api_witness :
  50 < String.length blank_content /\
  all_chars is_space blank_content = true /\
  extract_abstract_from_url blank_description_world sample_link = EmptyString /\
  metadata (snd (process_source blank_description_world EmptyString sample_link init_state))
  = [(sample_link, record "paper.pdf" "An abstract found by Crossref.")].
Proof.
  assert (L : 50 < String.length blank_content) by (simpl; lia).
  split; [exact L|]. split; [reflexivity|].
  destruct (blank_description_reaches_the_api blank_description_world EmptyString
              sample_link {| status_code := 200; text := EmptyString |}
              {| tag_name := "meta";
                 tag_attrs := [("name", "description"); ("content", blank_content)];
                 tag_classes := []; tag_text := EmptyString |}
              blank_content init_state eq_refl eq_refl eq_refl eq_refl L eq_refl)
    as (E & P).
  split; [exact E|]. exact (P eq_refl eq_refl eq_refl).
Defined.

(** ** What the loop leaves alone *)

Lemma for_each_other_keys w text k refs : forall st,
  ~ In k refs ->
  Dict.get k (metadata (snd (for_each refs (process_source w text) st)))
  = Dict.get k (metadata st).
Proof.
  induction refs as [|r refs IH]; intros st Hk; [reflexivity|].
  simpl. unfold bind.
  destruct (process_source_spec w text r st) as (i & st1 & P & _).
  pose proof (process_source_other_key w text r st k) as O.
  rewrite P in *. simpl in O. rewrite IH by (intros H; apply Hk; now right).
  apply O. intros ->. apply Hk. now left.
Qed.

(** X16. [process_links_and_dois] never raises, prints nothing and writes
    no file; it changes the metadata mapping only at the references it is
    given: the entry of any other key is as it was, and no key is lost. *)
Theorem loop_touches_only_its_references (w : World) (text : string)
    (links dois arxiv_ids : list string) (st : State) :
  exists st',
    process_links_and_dois w text links dois arxiv_ids st = (Ok tt, st') /\
    stdout st' = stdout st /\ files st' = files st /\
    (forall k, ~ In k (links ++ dois ++ arxiv_ids)%list ->
       Dict.get k (metadata st') = Dict.get k (metadata st)) /\
    (forall k, Dict.get k (metadata st) <> None -> Dict.get k (metadata st') <> None).
Proof.
  unfold process_links_and_dois, bind, modify.
  destruct (for_each_spec w text (links ++ dois ++ arxiv_ids)%list (fresh_locals st))
    as (st' & F & _ & Fkeep & _ & Fo & Ff).
  exists st'. split; [exact F|]. split; [exact Fo|]. split; [exact Ff|]. split.
  - intros k Hk.
    pose proof (for_each_other_keys w text k _ (fresh_locals st) Hk) as O.
    rewrite F in O. exact O.
  - exact Fkeep.
Qed.

(** ** References that no branch handles, in a batch *)

Lemma for_each_stale_frame w text t a bare : forall st,
  (forall x, In x bare -> dispatched x = false) ->
  v_title st = Some t -> v_abstract st = Some a -> truthy a = true ->
  forall d, In d bare ->
    Dict.get d (metadata (snd (for_each bare (process_source w text) st)))
    = Some (record t a).
Proof.
  intros st Hb Ht Ha Hy d Hd.
  destruct (for_each_stale w text t a bare st Hb Ht Ha Hy) as (st' & F & _ & _ & Fin & _).
  rewrite F. now apply Fin.
Qed.

(** X3. The references are processed in the order links, DOIs, arXiv
    identifiers. A reference that no branch of the loop handles and that
    comes before every handled reference of the batch (for one, each such
    DOI when no link was extracted and no DOI before it is handled) is
    recorded with the failure record, in every world, provided it does not
    occur again later in the batch: the variable [abstract] is still
    unbound when it is reached. *)
Theorem unhandled_before_any_handled_fail (w : World) (text : string)
    (links dois arxiv_ids bare rest : list string) (st : State) (d : string) :
  (links ++ dois ++ arxiv_ids)%list = (bare ++ rest)%list ->
  (forall x, In x bare -> dispatched x = false) ->
  In d bare -> ~ In d rest ->
  Dict.get d (metadata (snd (process_links_and_dois w text links dois arxiv_ids st)))
  = Some failed_record.
Proof.
  intros Hsplit Hb Hd Hrest.
  unfold process_links_and_dois, bind, modify. rewrite Hsplit, for_each_app.
  destruct (for_each_unbound w text bare (fresh_locals st) Hb eq_refl) as (st1 & F & Fin).
  rewrite F. rewrite for_each_other_keys by exact Hrest. now apply Fin.
Qed.

Lemma unhandled_before_any_handled_fail_witness :
  ([] ++ [sample_doi; "10.1234/arxiv.org/abs/1"] ++ [sample_arxiv])%list
  = ([sample_doi] ++ ["10.1234/arxiv.org/abs/1"; sample_arxiv])%list /\
  (forall x, In x [sample_doi] -> dispatched x = false) /\
  In sample_doi [sample_doi] /\
  ~ In sample_doi ["10.1234/arxiv.org/abs/1"; sample_arxiv] /\
  Dict.get sample_doi
    (metadata (snd (process_links_and_dois meta_world sample_text []
                      [sample_doi; "10.1234/arxiv.org/abs/1"] [sample_arxiv] init_state)))
  = Some failed_record.
Proof.
  assert (Hb : forall x, In x [sample_doi] -> dispatched x = false)
    by (intros x [<-|[]]; reflexivity).
  assert (Hd : In sample_doi [sample_doi]) by (left; reflexivity).
  assert (Hr : ~ In sample_doi ["10.1234/arxiv.org/abs/1"; sample_arxiv])
    by (intros [E|[E|[]]]; discriminate E).
  split; [reflexivity|]. split; [exact Hb|]. split; [exact Hd|]. split; [exact Hr|].
  exact (unhandled_before_any_handled_fail meta_world sample_text []
           [sample_doi; "10.1234/arxiv.org/abs/1"] [sample_arxiv]
           [sample_doi] ["10.1234/arxiv.org/abs/1"; sample_arxiv]
           init_state sample_doi eq_refl Hb Hd Hr).
Defined.

(** X4. A reference that no branch of the loop handles takes the record of
    the nearest handled reference before it. Let the batch, in the order
    links, DOIs, arXiv identifiers, be [before], then a handled reference
    [h], then references [bare] that no branch handles, then [rest]. In
    every world, every reference of [bare] that does not occur again in
    [rest] is recorded with the title and abstract that are recorded for
    [h] whenever [h] is processed; and if [h] does not occur again in
    [rest], that is the record [h] has at the end. *)
Theorem unhandled_copy_nearest_handled (w : World) (text : string)
    (links dois arxiv_ids before bare rest : list string) (h : string) (st : State) :
  (links ++ dois ++ arxiv_ids)%list = (before ++ h :: bare ++ rest)%list ->
  dispatched h = true ->
  (forall x, In x bare -> dispatched x = false) ->
  exists t a,
    (forall text0 st0,
       Dict.get h (metadata (snd (process_source w text0 h st0))) = Some (record t a)) /\
    let m := metadata (snd (process_links_and_dois w text links dois arxiv_ids st)) in
    (~ In h rest -> Dict.get h m = Some (record t a)) /\
    (forall d, In d bare -> ~ In d rest -> Dict.get d m = Some (record t a)).
Proof.
  intros Hsplit Hh Hb.
  destruct (dispatched_record w h Hh) as (t & a & Hy & Hrec).
  exists t, a. split.
  { intros text0 st0. destruct (Hrec text0 st0) as (s' & Q & Qm & _).
    rewrite Q. simpl. rewrite Qm. apply get_set_same. }
  cbv zeta. unfold process_links_and_dois, bind, modify.
  rewrite Hsplit, for_each_app.
  destruct (for_each_spec w text before (fresh_locals st)) as (st1 & F1 & _).
  rewrite F1. cbn [for_each]. unfold bind.
  destruct (Hrec text st1) as (st2 & P & Pm & Pt & Pa). rewrite P.
  rewrite for_each_app.
  destruct (for_each_stale w text t a bare st2 Hb Pt Pa Hy)
    as (st3 & F3 & _ & _ & Fin & Fout).
  rewrite F3. split.
  - intros Hrest. rewrite for_each_other_keys by exact Hrest.
    rewrite Fout.
    + rewrite Pm. apply get_set_same.
    + intros Hin. apply (handled_differs_from_bare h h Hh (Hb h Hin)). reflexivity.
  - intros d Hd Hrest. rewrite for_each_other_keys by exact Hrest. now apply Fin.
Qed.

Lemma unhandled_copy_nearest_handled_witness :
  ([sample_link] ++ ["10.1234/arxiv.org/abs/1"; sample_doi] ++ [sample_arxiv])%list
  = ([sample_link] ++ "10.1234/arxiv.org/abs/1" :: [sample_doi] ++ [sample_arxiv])%list /\
  dispatched "10.1234/arxiv.org/abs/1" = true /\
  (forall x, In x [sample_doi] -> dispatched x = false) /\
  ~ In sample_doi [sample_arxiv] /\
  Dict.get sample_doi
    (metadata (snd (process_links_and_dois meta_world sample_text [sample_link]
                      ["10.1234/arxiv.org/abs/1"; sample_doi] [sample_arxiv] init_state)))
  = Dict.get "10.1234/arxiv.org/abs/1"
      (metadata (snd (process_links_and_dois meta_world sample_text [sample_link]
                        ["10.1234/arxiv.org/abs/1"; sample_doi] [sample_arxiv] init_state))).
Proof.
  assert (Hb : forall x, In x [sample_doi] -> dispatched x = false)
    by (intros x [<-|[]]; reflexivity).
  assert (Hr : ~ In sample_doi [sample_arxiv]) by (intros [E|[]]; discriminate E).
  assert (Hr' : ~ In "10.1234/arxiv.org/abs/1" [sample_arxiv])
    by (intros [E|[]]; discriminate E).
  split; [reflexivity|]. split; [reflexivity|]. split; [exact Hb|]. split; [exact Hr|].
  destruct (unhandled_copy_nearest_handled meta_world sample_text [sample_link]
              ["10.1234/arxiv.org/abs/1"; sample_doi] [sample_arxiv]
              [sample_link] [sample_doi] [sample_arxiv] "10.1234/arxiv.org/abs/1"
              init_state eq_refl eq_refl Hb) as (t & a & _ & Hh & Hd).
  rewrite (Hh Hr'). apply Hd; [left; reflexivity | exact Hr].
Defined.
